(** * MessageBubble: content formatting and the @zani dispatch effect

    A shallow embedding of [src/components/dashboard/MessageBubble.tsx]:
    - [Module Js]: the JavaScript string operations and the fragment of
      regular expressions the component uses;
    - [Module Format]: [formatMessageContent] with [getFileType],
      [getActualFileUrl] and [getFileSize];
    - [Module Dispatch]: the [processZani] effect as a transition system;
    - [Module FormatFacts] and [Module DispatchFacts]: their properties. *)

From Stdlib Require Import NArith ZArith Ascii String DecimalString.
From stdpp Require Import gmap strings list.

Local Open Scope N_scope.

(** ** JavaScript strings and regular expressions *)

Module Js.

(** A JavaScript string is a sequence of UTF-16 code units. *)
Definition jsstring := list N.

(** An ASCII literal of the source, as code units. *)
Definition js (s : string) : jsstring :=
  map (fun a => N.of_nat (nat_of_ascii a)) (list_ascii_of_string s).

(** The double quote, kept apart from the literals. *)
Definition dq : jsstring := [34].

Definition jseqb (a b : jsstring) : bool := bool_decide (a = b).

(** [WhiteSpace] and [LineTerminator] code units: what [trim] strips and
    what the class [\s] accepts. *)
Definition is_space (c : N) : bool :=
  ((9 <=? c) && (c <=? 13)) || (c =? 32) || (c =? 160) || (c =? 5760)
  || ((8192 <=? c) && (c <=? 8202)) || (c =? 8232) || (c =? 8233)
  || (c =? 8239) || (c =? 8287) || (c =? 12288) || (c =? 65279).

(** The class [\w]: [A-Za-z0-9_]. *)
Definition is_word (c : N) : bool :=
  ((48 <=? c) && (c <=? 57)) || ((65 <=? c) && (c <=? 90))
  || (c =? 95) || ((97 <=? c) && (c <=? 122)).

(** The class [.] (no [s] flag): anything but a line terminator. *)
Definition is_dot (c : N) : bool :=
  negb ((c =? 10) || (c =? 13) || (c =? 8232) || (c =? 8233)).

Definition is_not (x : N) (c : N) : bool := negb (c =? x).
Definition is_not_space (c : N) : bool := negb (is_space c).

Fixpoint drop_spaces (s : jsstring) : jsstring :=
  match s with
  | c :: s' => if is_space c then drop_spaces s' else s
  | [] => []
  end.

(** [String.prototype.trim]. *)
Definition trim (s : jsstring) : jsstring :=
  rev (drop_spaces (rev (drop_spaces s))).

(** [s] without its prefix [p], when it has it. *)
Fixpoint strip_prefix (p s : jsstring) : option jsstring :=
  match p, s with
  | [], _ => Some s
  | _ :: _, [] => None
  | a :: p', b :: s' => if a =? b then strip_prefix p' s' else None
  end.

(** [s.replace(pat, '')] for a string pattern: the first occurrence of
    [pat] is cut out, nothing happens when there is none. *)
Fixpoint remove_first (pat s : jsstring) : jsstring :=
  match strip_prefix pat s with
  | Some rest => rest
  | None => match s with
            | [] => []
            | c :: s' => c :: remove_first pat s'
            end
  end.

(** [s.includes(pat)]. *)
Fixpoint includes (pat s : jsstring) : bool :=
  match strip_prefix pat s with
  | Some _ => true
  | None => match s with
            | [] => false
            | _ :: s' => includes pat s'
            end
  end.

Fixpoint last_segment (acc s : jsstring) : jsstring :=
  match s with
  | [] => acc
  | c :: s' => if c =? 46 then last_segment [] s' else last_segment (acc ++ [c]) s'
  end.

(** [s.split('.').pop()]: what follows the last dot, the whole string when
    there is no dot.  [split] never returns an empty array, so the result
    is always a string. *)
Definition split_dot_pop (s : jsstring) : jsstring := last_segment [] s.

(** [toLowerCase] on the letters [A-Z].  The callers only compare the
    result with lower-case ASCII extensions that hold no [k], and no other
    code unit lower-cases to one of their letters, so the comparison is the
    same as with the full Unicode mapping. *)
Definition lower (c : N) : N :=
  if (65 <=? c) && (c <=? 90) then c + 32 else c.
Definition toLowerCase (s : jsstring) : jsstring := map lower s.

(** *** [btoa] *)

Definition b64_digit (n : N) : N :=
  if n <? 26 then 65 + n
  else if n <? 52 then 97 + (n - 26)
  else if n <? 62 then 48 + (n - 52)
  else if n =? 62 then 43 else 47.

Fixpoint b64_encode (s : jsstring) : jsstring :=
  match s with
  | [] => []
  | [a] =>
      [b64_digit (a / 4); b64_digit ((a mod 4) * 16); 61; 61]
  | [a; b] =>
      [b64_digit (a / 4); b64_digit ((a mod 4) * 16 + b / 16);
       b64_digit ((b mod 16) * 4); 61]
  | a :: b :: c :: s' =>
      b64_digit (a / 4) :: b64_digit ((a mod 4) * 16 + b / 16)
      :: b64_digit ((b mod 16) * 4 + c / 64) :: b64_digit (c mod 64)
      :: b64_encode s'
  end.

(** [btoa] raises [InvalidCharacterError] as soon as one code unit is
    above 0xFF; [None] stands for that exception. *)
Definition btoa (s : jsstring) : option jsstring :=
  if forallb (fun c => c <=? 255) s then Some (b64_encode s) else None.

(** *** Regular expressions

    The constructs of the component's patterns.  A quantifier is only ever
    applied to a one-character class there, which is what [RMany] holds. *)
Inductive regex : Type :=
| RLit (l : jsstring)                          (* literal characters *)
| RClass (p : N -> bool)                       (* one character of a class *)
| RSeq (a b : regex)
| RAlt (a b : regex)                           (* a|b *)
| RMany (greedy : bool) (min : nat) (p : N -> bool)   (* p* p+ p*? p+? *)
| ROpt (a : regex)                             (* a? *)
| RGroup (a : regex)                           (* capturing group *)
| RNotAhead (a : regex)                        (* (?!a) *)
| REnd.                                        (* $ without the m flag *)

(** What is left of the input after a match, and the captures. *)
Definition mres : Type := jsstring * list jsstring.

(** Quantifier over a class, with the backtracking order of the greedy
    and of the lazy form. *)
Fixpoint many (greedy : bool) (p : N -> bool) (min : nat) (s : jsstring)
    (k : jsstring -> option mres) : option mres :=
  let stop := match min with O => k s | S _ => None end in
  match s with
  | [] => stop
  | c :: s' =>
      let more := if p c then many greedy p (pred min) s' k else None in
      if greedy
      then match more with Some x => Some x | None => stop end
      else match stop with Some x => Some x | None => more end
  end.

(** Backtracking matcher at the head of [s], in continuation-passing
    style.  Captures are listed in the order the groups close (no pattern
    of the component nests groups). *)
Fixpoint mt (r : regex) (s : jsstring) (caps : list jsstring)
    (k : jsstring -> list jsstring -> option mres) : option mres :=
  match r with
  | RLit l => match strip_prefix l s with
              | Some s' => k s' caps
              | None => None
              end
  | RClass p => match s with
                | c :: s' => if p c then k s' caps else None
                | [] => None
                end
  | RSeq a b => mt a s caps (fun s' c' => mt b s' c' k)
  | RAlt a b => match mt a s caps k with
                | Some x => Some x
                | None => mt b s caps k
                end
  | RMany g min p => many g p min s (fun s' => k s' caps)
  | ROpt a => match mt a s caps k with
              | Some x => Some x
              | None => k s caps
              end
  | RGroup a =>
      mt a s caps
         (fun s' c' => k s' (c' ++ [take (length s - length s') s]))
  | RNotAhead a =>
      match mt a s caps (fun s' c' => Some (s', c')) with
      | Some _ => None
      | None => k s caps
      end
  | REnd => match s with
            | [] => k s caps
            | _ :: _ => None
            end
  end.

(** A match starting exactly at the head of [s]: the matched text
    ([match[0]]) and the captures ([match[1]], ...). *)
Definition match_here (r : regex) (s : jsstring)
  : option (jsstring * list jsstring) :=
  match mt r s [] (fun s' c => Some (s', c)) with
  | Some (rest, caps) => Some (take (length s - length rest) s, caps)
  | None => None
  end.

(** The successive matches of a [g] pattern over [s], left to right: what
    a loop on [exec] sees.  [skip] counts the characters of the previous
    match still to step over. *)
Fixpoint matches_from (r : regex) (s : jsstring) (skip : nat)
  : list (jsstring * list jsstring) :=
  match s with
  | [] => match skip, match_here r [] with
          | O, Some m => [m]
          | _, _ => []
          end
  | _ :: s' =>
      match skip with
      | S n => matches_from r s' n
      | O => match match_here r s with
             | Some (m0, caps) => (m0, caps) :: matches_from r s' (pred (length m0))
             | None => matches_from r s' 0
             end
      end
  end.

Definition exec_all (r : regex) (s : jsstring) := matches_from r s 0.

(** [s.replace(r, f)] for a [g] pattern: every match, left to right, is
    replaced by [f match[0] captures]; the text between matches is copied. *)
Fixpoint replace_from (r : regex) (f : jsstring -> list jsstring -> jsstring)
    (s : jsstring) (skip : nat) : jsstring :=
  match s with
  | [] => match skip, match_here r [] with
          | O, Some (m0, caps) => f m0 caps
          | _, _ => []
          end
  | c :: s' =>
      match skip with
      | S n => replace_from r f s' n
      | O => match match_here r s with
             | Some (m0, caps) =>
                 match length m0 with
                 | O => f m0 caps ++ c :: replace_from r f s' 0
                 | S n => f m0 caps ++ replace_from r f s' n
                 end
             | None => c :: replace_from r f s' 0
             end
      end
  end.

Definition replace_all (r : regex) (f : jsstring -> list jsstring -> jsstring)
    (s : jsstring) : jsstring := replace_from r f s 0.

(** [$n] of a replacement string (n from 1). *)
Definition group (n : nat) (caps : list jsstring) : jsstring :=
  nth (pred n) caps [].

(** The test [if (x)] on a value that is a string, [null] or [undefined]:
    the string when it is not empty. *)
Definition truthy_str (o : option jsstring) : option jsstring :=
  match o with
  | Some (c :: s) => Some (c :: s)
  | _ => None
  end.

End Js.

(** ** The content transformation *)

Module Format.
Import Js.

(** The attachment marker, U+1F4CE, as its surrogate pair. *)
Definition marker : jsstring := [55357; 56526].

Definition q (s : jsstring) : jsstring := dq ++ s ++ dq.

(** *** The lookup store, [localStorage['slackAI_files']] *)

(** One value of the stored object.  A [null] value makes the [find]
    callback raise; a field that is absent is [None]. *)
Record StoredFile := {
  sf_name : option jsstring;
  sf_url : option jsstring;
  sf_size : option Z
}.

Inductive StoredValue :=
| SNull
| SFile (f : StoredFile).

Inductive Storage :=
| Absent                           (* getItem gives null *)
| Malformed                        (* JSON.parse raises *)
| Entries (vs : list StoredValue). (* Object.values of the parsed object *)

(** [Object.values(files).find(file => file.name === fileName)]:
    [None] when the callback raises. *)
Fixpoint find_by_name (vs : list StoredValue) (fileName : jsstring)
  : option (option StoredFile) :=
  match vs with
  | [] => Some None
  | SNull :: _ => None
  | SFile f :: vs' =>
      match sf_name f with
      | Some n => if jseqb n fileName then Some (Some f)
                  else find_by_name vs' fileName
      | None => find_by_name vs' fileName
      end
  end.

(** The body of the [try] of both lookups, up to the [fileEntry]: [None]
    when there is no stored item, when something raised (the [catch] only
    logs), or when no entry has the name. *)
Definition lookup_entry (st : Storage) (fileName : jsstring)
  : option StoredFile :=
  match st with
  | Absent | Malformed => None
  | Entries vs => match find_by_name vs fileName with
                  | Some r => r
                  | None => None
                  end
  end.

Definition truthy_num (o : option Z) : option Z :=
  match o with
  | Some n => if (n =? 0)%Z then None else Some n
  | None => None
  end.

(** *** Exceptions *)

Inductive exn := InvalidCharacterError.

Inductive completion (A : Type) :=
| Normal (a : A)
| Throw (e : exn).
Arguments Normal {A} a.
Arguments Throw {A} e.

(** *** [getFileType] *)

Definition one_of (l : list string) (e : jsstring) : bool :=
  existsb (fun x => jseqb (js x) e) l.

Definition getFileType (fileName : jsstring) : jsstring :=
  let extension := toLowerCase (split_dot_pop fileName) in
  if one_of ["jpg"; "jpeg"; "png"; "gif"; "webp"; "svg"]%string extension
  then js "image/" ++ (if jseqb extension (js "jpg") then js "jpeg" else extension)
  else if jseqb extension (js "pdf") then js "application/pdf"
  else if one_of ["doc"; "docx"]%string extension then js "application/msword"
  else if one_of ["xls"; "xlsx"]%string extension then js "application/excel"
  else js "application/octet-stream".

(** *** [getActualFileUrl] *)

(** [fileEntry && fileEntry.url], when it is truthy. *)
Definition stored_url (st : Storage) (fileName : jsstring) : option jsstring :=
  match lookup_entry st fileName with
  | Some f => truthy_str (sf_url f)
  | None => None
  end.

Definition getActualFileUrl (st : Storage) (fileName : jsstring)
  : completion jsstring :=
  match stored_url st fileName with
  | Some u => Normal u
  | None =>
      let extension := toLowerCase (split_dot_pop fileName) in
      if one_of ["jpg"; "jpeg"; "png"; "gif"; "webp"]%string extension
      then Normal (js "/lovable-uploads/525e7c65-c028-4da7-a1e6-35cba7375353.png")
      else match btoa fileName with
           | Some b => Normal (js "data:application/octet-stream;base64," ++ b)
           | None => Throw InvalidCharacterError
           end
  end.

(** *** [getFileSize]

    [draw k] is the integer [Math.floor(Math.random() * 5000000)] of the
    [k]-th call of [Math.random]; it is taken modulo 5000000, so that
    every [draw] is a legal source.  The result comes with the number of
    the next call. *)
Definition stored_size (st : Storage) (fileName : jsstring) : option Z :=
  match lookup_entry st fileName with
  | Some f => truthy_num (sf_size f)
  | None => None
  end.

Definition getFileSize (st : Storage) (draw : nat -> Z) (k : nat)
    (fileName : jsstring) : Z * nat :=
  match stored_size st fileName with
  | Some n => (n, k)
  | None => ((draw k mod 5000000 + 100000)%Z, S k)
  end.

(** *** [formatMessageContent] *)

Record FileInfo := {
  name : jsstring;
  type : jsstring;
  url : jsstring;
  size : Z
}.

Record Formatted := {
  formattedContent : jsstring;
  files : list FileInfo
}.

(** [/\u{1F4CE} (.+?)(?:\n|$)/g] *)
Definition filePattern : regex :=
  RSeq (RLit (marker ++ js " "))
       (RSeq (RGroup (RMany false 1 is_dot)) (RAlt (RLit [10]) REnd)).

(** [/@(\w+)(?!zani)/g] *)
Definition mentionRegex : regex :=
  RSeq (RLit (js "@"))
       (RSeq (RGroup (RMany true 1 is_word)) (RNotAhead (RLit (js "zani")))).

(** [/#(\w+)/g] *)
Definition channelRegex : regex :=
  RSeq (RLit (js "#")) (RGroup (RMany true 1 is_word)).

(** [/!\[(.*?)\]\((.*?)\)/g] *)
Definition imageRegex : regex :=
  RSeq (RLit (js "!["))
    (RSeq (RGroup (RMany false 0 is_dot))
       (RSeq (RLit (js "]("))
          (RSeq (RGroup (RMany false 0 is_dot)) (RLit (js ")"))))).

(** [/(https?:\/\/[^\s]+)/g] *)
Definition urlRegex : regex :=
  RGroup (RSeq (RLit (js "http"))
            (RSeq (ROpt (RLit (js "s")))
               (RSeq (RLit (js "://")) (RMany true 1 is_not_space)))).

(** [/\*([^*]+)\*/g], [/\_([^_]+)\_/g] and [/`([^`]+)`/g] *)
Definition delimited (d : N) : regex :=
  RSeq (RLit [d]) (RSeq (RGroup (RMany true 1 (is_not d))) (RLit [d])).
Definition boldRegex : regex := delimited 42.
Definition italicRegex : regex := delimited 95.
Definition codeRegex : regex := delimited 96.

Definition image_html (alt url : jsstring) : jsstring :=
  js "<img src=" ++ q url ++ js " alt=" ++ q alt
  ++ js " class="
  ++ q (js "max-w-full rounded-md my-2 cursor-pointer hover:opacity-90 transition-opacity")
  ++ js " style=" ++ q (js "max-height: 300px;")
  ++ js " onclick=" ++ q (js "window.open('" ++ url ++ js "', '_blank')")
  ++ js " />".

Definition link_html (u : jsstring) : jsstring :=
  js "<a href=" ++ q u ++ js " target=" ++ q (js "_blank")
  ++ js " rel=" ++ q (js "noopener noreferrer")
  ++ js " class=" ++ q (js "text-blue-400 hover:underline")
  ++ js ">" ++ u ++ js "</a>".

Definition span_html (sigil w : jsstring) : jsstring :=
  js "<span class=" ++ q (js "text-blue-400 hover:underline cursor-pointer")
  ++ js ">" ++ sigil ++ w ++ js "</span>".

Definition code_html (w : jsstring) : jsstring :=
  js "<code class=" ++ q (js "bg-gray-700 px-1 rounded text-white")
  ++ js ">" ++ w ++ js "</code>".

(** The rewriting stages, in the order of the source. *)
Definition stage_image (s : jsstring) : jsstring :=
  replace_all imageRegex (fun _ caps => image_html (group 1 caps) (group 2 caps)) s.
Definition stage_url (s : jsstring) : jsstring :=
  replace_all urlRegex (fun _ caps => link_html (group 1 caps)) s.
Definition stage_mention (s : jsstring) : jsstring :=
  replace_all mentionRegex (fun _ caps => span_html (js "@") (group 1 caps)) s.
Definition stage_channel (s : jsstring) : jsstring :=
  replace_all channelRegex (fun _ caps => span_html (js "#") (group 1 caps)) s.
Definition stage_bold (s : jsstring) : jsstring :=
  replace_all boldRegex
    (fun _ caps => js "<strong>" ++ group 1 caps ++ js "</strong>") s.
Definition stage_italic (s : jsstring) : jsstring :=
  replace_all italicRegex (fun _ caps => js "<em>" ++ group 1 caps ++ js "</em>") s.
Definition stage_code (s : jsstring) : jsstring :=
  replace_all codeRegex (fun _ caps => code_html (group 1 caps)) s.

(** The state of the attachment loop: the files pushed so far, the working
    text and the number of the next [Math.random] call. *)
Definition loop_state : Type := list FileInfo * jsstring * nat.

Section WithEnvironment.

(** [highlightZaniMentions] is imported from [@/services/zaniService]: a
    function from markup to markup. *)
Variable highlightZaniMentions : jsstring -> jsstring.
Variable st : Storage.
Variable draw : nat -> Z.

(** One turn of the [while] loop, for the match [m]. *)
Definition loop_body (s : loop_state) (m : jsstring * list jsstring)
  : completion loop_state :=
  let '(fs, textContent, k) := s in
  let fileName := trim (group 1 (snd m)) in
  match getActualFileUrl st fileName with
  | Throw e => Throw e
  | Normal u =>
      let '(sz, k') := getFileSize st draw k fileName in
      Normal (fs ++ [{| name := fileName; type := getFileType fileName;
                        url := u; size := sz |}],
              trim (remove_first (fst m) textContent), k')
  end.

Fixpoint loop (ms : list (jsstring * list jsstring)) (s : loop_state)
  : completion loop_state :=
  match ms with
  | [] => Normal s
  | m :: ms' => match loop_body s m with
                | Normal s' => loop ms' s'
                | Throw e => Throw e
                end
  end.

(** The text stages, from the image rewrite to the inline code. *)
Definition format_text (textContent : jsstring) : jsstring :=
  let formattedContent := stage_image textContent in
  let formattedContent := stage_url formattedContent in
  let formattedContent := highlightZaniMentions formattedContent in
  let formattedContent := stage_channel (stage_mention formattedContent) in
  stage_code (stage_italic (stage_bold formattedContent)).

(** [formatMessageContent], started when [k] calls of [Math.random] have
    been made. *)
Definition formatMessageContent_from (k : nat) (content : jsstring)
  : completion Formatted :=
  match loop (exec_all filePattern content) ([], content, k) with
  | Throw e => Throw e
  | Normal (fs, textContent, _) =>
      Normal {| formattedContent := format_text textContent; files := fs |}
  end.

Definition formatMessageContent (content : jsstring) : completion Formatted :=
  formatMessageContent_from 0 content.

End WithEnvironment.

(** Modelled from the spec: the pattern of the assistant token, missing
    here with [@/services/zaniService]; the token is [@zani] and "the
    assistant-token match requires an exact boundary, not a prefix": white
    space or the end of the text follows it. *)
Definition zaniRegex : regex :=
  RSeq (RLit (js "@zani")) (RNotAhead (RClass is_not_space)).

(** Modelled from the spec: [highlightZaniMentions] of the service module,
    missing here; the token is "visually distinguished" from ordinary
    mentions: a span of a class of its own goes around it. *)
Definition highlightZaniMentions_model (s : jsstring) : jsstring :=
  replace_all zaniRegex
    (fun m _ => js "<span class=" ++ q (js "zani-mention") ++ js ">" ++ m
                ++ js "</span>") s.

(** *** Observations on a result *)

Fixpoint until_quote (s : jsstring) : jsstring :=
  match s with
  | [] => []
  | c :: s' => if c =? 34 then [] else c :: until_quote s'
  end.

(** The source of every image element of a markup: what stands between
    [<img src=] with its opening quote and the next quote. *)
Fixpoint img_sources (s : jsstring) : list jsstring :=
  match s with
  | [] => []
  | _ :: s' =>
      match strip_prefix (js "<img src=" ++ dq) s with
      | Some rest => until_quote rest :: img_sources s'
      | None => img_sources s'
      end
  end.

(** A file without its size when the store gives none for its name, that
    is, when the size is the random placeholder. *)
Definition without_placeholder (st : Storage) (f : FileInfo) : FileInfo :=
  match stored_size st (name f) with
  | Some _ => f
  | None => {| name := name f; type := type f; url := url f; size := 0 |}
  end.

Definition without_placeholders (st : Storage) (r : completion Formatted)
  : completion Formatted :=
  match r with
  | Normal x =>
      Normal {| formattedContent := formattedContent x;
                files := map (without_placeholder st) (files x) |}
  | Throw e => Throw e
  end.

(** Two states of the attachment loop that two runs can be in together. *)
Definition same_up_to_placeholders (st : Storage)
    (r1 r2 : completion loop_state) : Prop :=
  match r1, r2 with
  | Normal (fs1, t1, _), Normal (fs2, t2, _) =>
      map (without_placeholder st) fs1 = map (without_placeholder st) fs2
      /\ t1 = t2
  | Throw e1, Throw e2 => e1 = e2
  | _, _ => False
  end.

(** [/@(\w+)/g]: [mentionRegex] without its lookahead. *)
Definition mentionRegex_plain : regex :=
  RSeq (RLit (js "@")) (RGroup (RMany true 1 is_word)).

(** A text that does not start with a word character. *)
Definition at_word_end (s : jsstring) : Prop :=
  match s with
  | [] => True
  | c :: _ => is_word c = false
  end.

(** *** The texts the properties are stated at *)

Definition image_input : jsstring := js "![a](http://x/y.png)".
Definition mention_input : jsstring := js "@alice asked @zani-bot something".
Definition attachment_input : jsstring :=
  marker ++ js " report.pdf" ++ [10] ++ js "hello".
(** An attachment line for a file named [U+65E5 U+672C .pdf]. *)
Definition unicode_input : jsstring :=
  marker ++ js " " ++ [26085; 26412] ++ js ".pdf".
Definition placeholder_input : jsstring := marker ++ js " a.txt".

End Format.

(** ** The [processZani] effect *)

Module Dispatch.
Import Js.

Record Message := {
  id : jsstring;
  channelId : jsstring;
  content : jsstring
}.

(** The arguments of one call of [processZaniQuery]. *)
Record QueryCall := {
  call_query : jsstring;
  call_history : list Message;
  call_channelId : jsstring;
  call_messageId : jsstring;
  call_content : jsstring
}.

(** What the effect reads and writes: the stored responses and the
    processed marks kept by the service module, the two pieces of React
    state of the bubble, and the calls of [processZaniQuery]: all of them
    so far, and how many have not settled yet. *)
Record World := {
  responses : gmap jsstring jsstring;
  processed : gset jsstring;
  isProcessingZani : bool;
  zaniResponse : option jsstring;
  calls : list QueryCall;
  pending : nat
}.

(** The next four functions belong to [@/services/zaniService], which is
    not among the sources; the spec gives their contracts (4.4, 6). *)

(** Modelled from the spec: [getStoredZaniResponse] of the service module,
    missing here; the response cache has "[get(messageId) -> string |
    absent]". *)
Definition getStoredZaniResponse (w : World) (messageId : jsstring)
  : option jsstring := responses w !! messageId.

(** Modelled from the spec: [storeZaniResponse] of the service module,
    missing here; the response cache has "[put(messageId, text)]", and what
    was put is what [get] returns. *)
Definition storeZaniResponse (messageId response : jsstring) (w : World)
  : World :=
  {| responses := <[messageId := response]> (responses w);
     processed := processed w;
     isProcessingZani := isProcessingZani w;
     zaniResponse := zaniResponse w;
     calls := calls w;
     pending := pending w |}.

(** Modelled from the spec: [isMessageProcessed] of the service module,
    missing here; "[isProcessed(messageId) -> bool] independent of whether
    text is retrievable (covers the case a query was dispatched but has
    not yet resolved)". *)
Definition isMessageProcessed (w : World) (messageId : jsstring) : bool :=
  bool_decide (messageId ∈ processed w).

(** Modelled from the spec: [processZaniQuery] of the service module,
    missing here; "[answer(query, history, channelId, messageId,
    rawContent) -> Promise<string>]; may fail".  The call is recorded and
    its promise is pending; the message is marked as processed at once,
    since [isProcessed] covers a query that was dispatched and has not
    resolved, and nothing in the component sets that mark.  The service
    only answers (6: it returns the text, [put] is an operation of the
    response cache): it writes no response itself. *)
Definition processZaniQuery (c : QueryCall) (w : World) : World :=
  {| responses := responses w;
     processed := {[ call_messageId c ]} ∪ processed w;
     isProcessingZani := isProcessingZani w;
     zaniResponse := zaniResponse w;
     calls := calls w ++ [c];
     pending := S (pending w) |}.

(** The promise of one pending call settles. *)
Definition settle (w : World) : World :=
  {| responses := responses w;
     processed := processed w;
     isProcessingZani := isProcessingZani w;
     zaniResponse := zaniResponse w;
     calls := calls w;
     pending := pred (pending w) |}.

(** The two state setters of the component. *)
Definition setZaniResponse (r : jsstring) (w : World) : World :=
  {| responses := responses w;
     processed := processed w;
     isProcessingZani := isProcessingZani w;
     zaniResponse := Some r;
     calls := calls w;
     pending := pending w |}.

Definition setIsProcessingZani (b : bool) (w : World) : World :=
  {| responses := responses w;
     processed := processed w;
     isProcessingZani := b;
     zaniResponse := zaniResponse w;
     calls := calls w;
     pending := pending w |}.

Definition errorResponse : jsstring :=
  js "Sorry, I encountered an error processing your request.".

Section Effect.

(** The other imports of the effect, and the message of the bubble. *)
Variable containsZaniMention : jsstring -> bool.
Variable extractZaniQuery : jsstring -> option jsstring.
Variable getMessages : jsstring -> option (list Message).
Variable message : Message.

(** [processZani] up to its [await].  [captured] is the value of
    [isProcessingZani] in the closure of the render that created the
    effect: the test reads that constant, not the state itself. *)
Definition processZani (captured : bool) (w : World) : World :=
  match content message with
  | [] => w
  | _ :: _ =>
      if containsZaniMention (content message) then
        match truthy_str (getStoredZaniResponse w (id message)) with
        | Some storedResponse => setZaniResponse storedResponse w
        | None =>
            if negb (isMessageProcessed w (id message)) && negb captured then
              match truthy_str (extractZaniQuery (content message)) with
              | Some query =>
                  let w := setIsProcessingZani true w in
                  let currentChannelMessages :=
                    default [] (getMessages (channelId message)) in
                  processZaniQuery
                    {| call_query := query;
                       call_history := currentChannelMessages;
                       call_channelId := channelId message;
                       call_messageId := id message;
                       call_content := content message |} w
              | None => w
              end
            else w
        end
      else w
  end.

(** After the [await], when the promise is fulfilled with [response]:
    the rest of the [try], then the [finally]. *)
Definition processZani_fulfilled (response : jsstring) (w : World) : World :=
  let w := match response with
           | [] => w
           | _ :: _ => setZaniResponse response w
           end in
  setIsProcessingZani false w.

(** After the [await], when the promise is rejected: the [catch], then
    the [finally]. *)
Definition processZani_rejected (w : World) : World :=
  let w := storeZaniResponse (id message) errorResponse w in
  let w := setZaniResponse errorResponse w in
  setIsProcessingZani false w.

(** What can happen to the bubble: the effect fires with the flag its
    closure holds, or a pending promise settles. *)
Inductive event :=
| Fire (captured : bool)
| Resolve (response : jsstring)
| Reject.

(** One event, [None] when it cannot happen: a promise settles only while
    one is pending, and a closure can hold [true] only once the flag has
    been set, which the effect does right before a call. *)
Definition step (e : event) (w : World) : option World :=
  match e with
  | Fire captured =>
      match captured, calls w with
      | true, [] => None
      | _, _ => Some (processZani captured w)
      end
  | Resolve response =>
      match pending w with
      | O => None
      | S _ => Some (processZani_fulfilled response (settle w))
      end
  | Reject =>
      match pending w with
      | O => None
      | S _ => Some (processZani_rejected (settle w))
      end
  end.

Fixpoint run (tr : list event) (w : World) : option World :=
  match tr with
  | [] => Some w
  | e :: tr' => match step e w with
                | Some w' => run tr' w'
                | None => None
                end
  end.

Definition is_fire (e : event) : bool :=
  match e with
  | Fire _ => true
  | _ => false
  end.

(** How many times the effect fires in a trace. *)
Definition fires (tr : list event) : nat := length (filter is_fire tr).

(** The bubble as it mounts over the stores [rs] and [ps]. *)
Definition mount (rs : gmap jsstring jsstring) (ps : gset jsstring) : World :=
  {| responses := rs; processed := ps; isProcessingZani := false;
     zaniResponse := None; calls := []; pending := 0 |}.

(** The message mentions the assistant with a query that can be
    extracted. *)
Definition mention_with_query (query : jsstring) : Prop :=
  content message <> [] /\
  containsZaniMention (content message) = true /\
  truthy_str (extractZaniQuery (content message)) = Some query.

(** A response for the message can be read back from the store. *)
Definition answered (w : World) (text : jsstring) : Prop :=
  truthy_str (getStoredZaniResponse w (id message)) = Some text.

(** No response can be read back and the message is not marked. *)
Definition unanswered (w : World) : Prop :=
  truthy_str (getStoredZaniResponse w (id message)) = None /\
  id message ∉ processed w.

(** The call the effect makes for the query [q]. *)
Definition the_call (q : jsstring) : QueryCall :=
  {| call_query := q;
     call_history := default [] (getMessages (channelId message));
     call_channelId := channelId message;
     call_messageId := id message;
     call_content := content message |}.

(** What holds of every world the bubble can be in, once mounted over the
    stores [rs] and [ps]. *)
Record inv (rs : gmap jsstring jsstring) (ps : gset jsstring) (w : World)
  : Prop := {
  inv_calls :
    calls w = [] \/
    exists q, truthy_str (extractZaniQuery (content message)) = Some q /\
              calls w = [the_call q];
  inv_pending : (pending w <= length (calls w))%nat;
  inv_marked : calls w <> [] -> id message ∈ processed w;
  inv_before : calls w = [] -> responses w = rs /\ processed w = ps;
  inv_waiting :
    pending w <> 0%nat ->
    zaniResponse w = None /\
    truthy_str (getStoredZaniResponse w (id message)) = None;
  inv_silent :
    truthy_str (getStoredZaniResponse w (id message)) = None ->
    calls w = [] -> zaniResponse w = None
}.

End Effect.

Arguments inv_calls {_ _ _ _ _ _} _.
Arguments inv_pending {_ _ _ _ _ _} _.
Arguments inv_marked {_ _ _ _ _ _} _ _.
Arguments inv_before {_ _ _ _ _ _} _ _.
Arguments inv_waiting {_ _ _ _ _ _} _ _.
Arguments inv_silent {_ _ _ _ _ _} _ _ _.

(** Modelled from the spec: the detector of [@/services/zaniService],
    missing here; it "recognizes the reserved assistant token followed by
    free text; the query is the text after the token up to
    end-of-content".  [after_zani] is what follows the first [@zani] that
    stands at a boundary. *)
Fixpoint after_zani (s : jsstring) : option jsstring :=
  match s with
  | [] => None
  | _ :: s' =>
      match strip_prefix (js "@zani") s with
      | Some [] => Some []
      | Some (c :: rest) =>
          if is_space c then Some (c :: rest) else after_zani s'
      | None => after_zani s'
      end
  end.

(** Modelled from the spec: [containsZaniMention] of the service module,
    missing here; the token is recognized at an exact boundary. *)
Definition containsZaniMention_model (s : jsstring) : bool :=
  match after_zani s with
  | Some _ => true
  | None => false
  end.

(** Modelled from the spec: [extractZaniQuery] of the service module,
    missing here; the query is the text after the token, and there is none
    to extract when only white space follows. *)
Definition extractZaniQuery_model (s : jsstring) : option jsstring :=
  match after_zani s with
  | Some rest => Some (trim rest)
  | None => None
  end.

(** *** The message and the worlds the properties are stated at *)

Definition zani_message : Message :=
  {| id := js "m1"; channelId := js "general";
     content := js "@zani what is up" |}.

Definition no_history (channel : jsstring) : option (list Message) := None.

Definition empty_mount : World := mount ∅ ∅.

Definition sample_trace : list event :=
  [Fire false; Fire true; Fire false; Resolve (js "hi"); Fire false].

Definition answered_world : World :=
  storeZaniResponse (id zani_message) (js "All good.") empty_mount.

(** The bubble while its one query is pending. *)
Definition waiting_world : World :=
  processZani containsZaniMention_model extractZaniQuery_model no_history
    zani_message false empty_mount.

End Dispatch.

(** ** Shapes of text and of markup that the further properties speak of *)

Module FormatAux.
Import Js Format.

(** No character of [s] is one of [cs]. *)
Definition free_of (cs : list N) (s : jsstring) : bool :=
  forallb (fun c => negb (existsb (N.eqb c) cs)) s.

(** The characters that start a pattern of one character:
    [!], [@], [#], [*], [_] and the backquote. *)
Definition triggers : list N := [33; 64; 35; 42; 95; 96].

(** A bare address: [http://] or [https://] and a run of characters that
    are not white space. *)
Definition bare_url (u : jsstring) : Prop :=
  exists v, (u = js "http://" ++ v \/ u = js "https://" ++ v) /\
            v <> [] /\ forallb is_not_space v = true.

(** White space, or nothing, comes next. *)
Definition at_space (s : jsstring) : Prop :=
  match s with
  | [] => True
  | c :: _ => is_not_space c = false
  end.

(** The two halves of [link_html u], around the underscore of [_blank]. *)
Definition link_head (u : jsstring) : jsstring :=
  js "<a href=" ++ q u ++ js " target=" ++ dq.

Definition link_tail (u : jsstring) : jsstring :=
  js "blank" ++ dq ++ js " rel=" ++ q (js "noopener noreferrer")
  ++ js " class=" ++ q (js "text-blue-400 hover:underline")
  ++ js ">" ++ u ++ js "</a>".

(** [file.type.startsWith('image/')]: the test of the view that shows an
    attachment as a picture rather than through [FilePreview]. *)
Definition shown_as_image (f : FileInfo) : bool :=
  match strip_prefix (js "image/") (type f) with
  | Some _ => true
  | None => false
  end.

(** The extensions [getFileType] takes for pictures, and the ones for
    which [getActualFileUrl] has a stand-in address. *)
Definition image_extensions : list string :=
  ["jpg"; "jpeg"; "png"; "gif"; "webp"; "svg"]%string.
Definition placeholder_extensions : list string :=
  ["jpg"; "jpeg"; "png"; "gif"; "webp"]%string.

(** The extension as both functions compute it. *)
Definition extension_of (fileName : jsstring) : jsstring :=
  toLowerCase (split_dot_pop fileName).

(** Stored values that the lookup passes over: objects with another
    name. *)
Definition others (fileName : jsstring) (vs : list StoredValue) : Prop :=
  Forall (fun v => exists g, v = SFile g /\ sf_name g <> Some fileName) vs.

(** The name fits [btoa]: no code unit is above 0xFF. *)
Definition latin1 (s : jsstring) : bool := forallb (fun c => c <=? 255) s.

(** A file name as an attachment line holds it when it is written with
    no white space around it: at least one character, no line terminator,
    no white space at either end. *)
Definition bare_name (n : jsstring) : bool :=
  forallb is_dot n
  && match n with [] => false | c :: _ => negb (is_space c) end
  && match rev n with [] => false | c :: _ => negb (is_space c) end.

(** The attachment line for the file name [n], without its line feed. *)
Definition attachment_line (n : jsstring) : jsstring := marker ++ js " " ++ n.

(** The name of the attachment of one match of [filePattern]. *)
Definition match_name (m : jsstring * list jsstring) : jsstring :=
  trim (group 1 (snd m)).

End FormatAux.

(** ** The time shown beside a message *)

Module Timestamp.
Import Js.

Local Open Scope Z_scope.

(** The time value of a [Date], in milliseconds; [None] is the NaN of an
    invalid date.  The numbers of [formatTimestamp] are differences of
    time values and their quotients: integers, or NaN.  (Time values are
    at most 8.64e15 in absolute value; the floor of the floating-point
    quotient is the floor of the exact one wherever a test of the function
    can tell the difference.) *)
Definition Date : Type := option Z.
Definition number : Type := option Z.

Definition getTime (d : Date) : number := d.

Definition minus (a b : number) : number :=
  match a, b with
  | Some x, Some y => Some (x - y)
  | _, _ => None
  end.

(** [Math.floor(a / b)] *)
Definition floor_div (a : number) (b : Z) : number :=
  match a with
  | Some x => Some (x / b)
  | None => None
  end.

(** [a < b]: false on NaN. *)
Definition less (a : number) (b : Z) : bool :=
  match a with
  | Some x => x <? b
  | None => false
  end.

(** [`${a}`] *)
Definition number_to_string (a : number) : jsstring :=
  match a with
  | Some x => js (NilZero.string_of_int (Z.to_int x))
  | None => js "NaN"
  end.

Section WithDate.

(** The values that are numbers, and the built-in conversions:
    [new Date(string)], [new Date(number)] and [toLocaleDateString]. *)
Variable V : Type.
Variable Date_of_string : jsstring -> Date.
Variable Date_of_number : V -> Date.
Variable toLocaleDateString : Date -> jsstring.

(** A [timestamp: any]. *)
Inductive timestamp :=
| TsDate (d : Date)
| TsString (s : jsstring)
| TsNumber (x : V)
| TsOther.

(** [ensureDate]; [clock] is the time of [new Date()]. *)
Definition ensureDate (clock : Z) (t : timestamp) : Date :=
  match t with
  | TsDate d => d
  | TsString s => Date_of_string s
  | TsNumber x => Date_of_number x
  | TsOther => Some clock
  end.

(** [formatTimestamp]; [clock1] is the clock as [ensureDate] reads it,
    [clock2] as [formatTimestamp] reads it right after. *)
Definition formatTimestamp (clock1 clock2 : Z) (t : timestamp) : jsstring :=
  let date := ensureDate clock1 t in
  let now : Date := Some clock2 in
  let diff := minus (getTime now) (getTime date) in
  let minutes := floor_div diff (1000 * 60) in
  let hours := floor_div diff (1000 * 60 * 60) in
  let days := floor_div diff (1000 * 60 * 60 * 24) in
  if less minutes 1 then js "now"
  else if less minutes 60 then number_to_string minutes ++ js "m"
  else if less hours 24 then number_to_string hours ++ js "h"
  else if less days 7 then number_to_string days ++ js "d"
  else toLocaleDateString date.

End WithDate.

Arguments TsDate {V} d.
Arguments TsString {V} s.
Arguments TsNumber {V} x.
Arguments TsOther {V}.

(** Stand-ins for the built-in conversions, for the closed statements:
    numbers are integers, no string parses, and the local date of an
    invalid date reads [Invalid Date]. *)
Definition sample_parse (s : jsstring) : Date := None.
Definition sample_of_number (x : Z) : Date := Some x.
Definition sample_locale (d : Date) : jsstring :=
  match d with
  | Some _ => js "1/2/2024"
  | None => js "Invalid Date"
  end.

End Timestamp.

(** ** Properties of the content transformation *)

Module FormatFacts.
Import Js Format.

(** C5, at an input where it fails: an attachment line whose file name has
    code units above 0xFF, is not an image name and is not in the store,
    makes [formatMessageContent] raise [InvalidCharacterError] (from
    [btoa]) instead of returning a result. *)
Theorem formatMessageContent_throws_on_unicode_name
    (hl : jsstring -> jsstring) (draw : nat -> Z) :
  formatMessageContent hl Absent draw unicode_input
  = Throw InvalidCharacterError.
Proof. vm_compute. reflexivity. Qed.

(** C7, at its own input: whatever the highlighter, as long as it leaves
    this text without a mention alone, the link stage rewrites the address
    that the image stage has just put into the [img] element, and the
    source of the image element of the result is the text [<a href=], not
    the address. *)
Theorem formatMessageContent_image_source_rewritten
    (hl : jsstring -> jsstring) (st : Storage) (draw : nat -> Z) :
  hl (stage_url (stage_image image_input)) = stage_url (stage_image image_input) ->
  exists r,
    formatMessageContent hl st draw image_input = Normal r /\
    files r = [] /\
    img_sources (formattedContent r) = [js "<a href="] /\
    img_sources (formattedContent r) <> [js "http://x/y.png"].
Proof.
  intros Hhl.
  eexists. split.
  - unfold formatMessageContent, formatMessageContent_from.
    replace (exec_all filePattern image_input) with (@nil (jsstring * list jsstring))
      by (vm_compute; reflexivity).
    cbn [loop]. unfold format_text. rewrite Hhl. reflexivity.
  - cbn [files formattedContent].
    split; [reflexivity|].
    split; [vm_compute; reflexivity|].
    vm_compute. discriminate.
Qed.

Lemma formatMessageContent_image_source_rewritten_witness :
  exists r,
    formatMessageContent highlightZaniMentions_model Absent (fun _ => 0%Z)
      image_input = Normal r /\
    files r = [] /\
    img_sources (formattedContent r) = [js "<a href="] /\
    img_sources (formattedContent r) <> [js "http://x/y.png"].
Proof.
  apply (formatMessageContent_image_source_rewritten
           highlightZaniMentions_model Absent (fun _ => 0%Z)).
  vm_compute. reflexivity.
Defined.

(** *** The lookahead of [mentionRegex] *)

(** A [g] replacement only depends on the matches at each position. *)
Lemma replace_from_ext (r r' : regex) (f : jsstring -> list jsstring -> jsstring) :
  (forall s, match_here r s = match_here r' s) ->
  forall s skip, replace_from r f s skip = replace_from r' f s skip.
Proof.
  intros Hm s. induction s as [|c s IH]; intros skip; cbn [replace_from].
  - rewrite Hm. reflexivity.
  - destruct skip as [|n]; [|apply IH].
    rewrite Hm. destruct (match_here r' (c :: s)) as [[m0 caps]|].
    + destruct (length m0); rewrite IH; reflexivity.
    + rewrite IH. reflexivity.
Qed.

(** The greedy [\w*] hands to its continuation the text after the whole
    run of word characters first: two continuations that agree there, one
    of which never fails, give the same match. *)
Lemma many_word_greedy_0 (k k' : jsstring -> option mres) :
  (forall s', at_word_end s' -> k s' = k' s') ->
  (forall s', k' s' <> None) ->
  forall s, many true is_word 0 s k = many true is_word 0 s k'
            /\ many true is_word 0 s k' <> None.
Proof.
  intros Hagree Htotal s. induction s as [|c s [IH1 IH2]]; cbn [many pred].
  - split; [apply Hagree; exact I | apply Htotal].
  - destruct (is_word c) eqn:Hc.
    + rewrite IH1. destruct (many true is_word 0 s k') as [x|]; [|contradiction].
      split; [reflexivity | discriminate].
    + split; [apply Hagree; exact Hc | apply Htotal].
Qed.

Lemma many_word_greedy_1 (k k' : jsstring -> option mres) :
  (forall s', at_word_end s' -> k s' = k' s') ->
  (forall s', k' s' <> None) ->
  forall s, many true is_word 1 s k = many true is_word 1 s k'.
Proof.
  intros Hagree Htotal [|c s]; cbn [many pred]; [reflexivity|].
  destruct (is_word c); [|reflexivity].
  destruct (many_word_greedy_0 k k' Hagree Htotal s) as [-> _].
  reflexivity.
Qed.

(** At the end of a run of word characters the text cannot go on with
    [zani]. *)
Lemma no_zani_at_word_end (s : jsstring) :
  at_word_end s -> strip_prefix (js "zani") s = None.
Proof.
  destruct s as [|c s]; [reflexivity|]. cbn [at_word_end]. intros Hc.
  change (js "zani") with (122 :: js "ani"). cbn [strip_prefix].
  destruct (N.eqb_spec 122 c) as [<-|]; [discriminate Hc | reflexivity].
Qed.

(** The lookahead [(?!zani)] stands after the greedy [\w+], where it can
    never reject: [mentionRegex] matches exactly what [/@(\w+)/] matches. *)
Lemma mentionRegex_lookahead_vacuous (s : jsstring) :
  match_here mentionRegex s = match_here mentionRegex_plain s.
Proof.
  unfold match_here, mentionRegex, mentionRegex_plain. cbn [mt].
  destruct (strip_prefix (js "@") s) as [s1|]; [|reflexivity].
  rewrite (many_word_greedy_1 _
             (fun s' => Some (s', [] ++ [take (length s1 - length s') s1]))).
  - reflexivity.
  - intros s' Hs'. rewrite (no_zani_at_word_end s' Hs'). reflexivity.
  - intros s'. discriminate.
Qed.

Lemma stage_mention_plain (s : jsstring) :
  stage_mention s
  = replace_all mentionRegex_plain
      (fun _ caps => span_html (js "@") (group 1 caps)) s.
Proof.
  unfold stage_mention, replace_all.
  apply replace_from_ext, mentionRegex_lookahead_vacuous.
Qed.

(** C8, at inputs where it fails: the ordinary-mention stage rewrites the
    reserved token [@zani] like any other mention, and on the text
    [@alice asked @zani-bot something] the whole transformation, with the
    highlighter modelled from the spec, puts [@zani] into an ordinary
    mention span that ends before [-bot]. *)
Theorem stage_mention_rewrites_zani :
  stage_mention (js "@zani hello")
  = span_html (js "@") (js "zani") ++ js " hello"
  /\ stage_mention mention_input
     = span_html (js "@") (js "alice") ++ js " asked "
       ++ span_html (js "@") (js "zani") ++ js "-bot something"
  /\ formatMessageContent highlightZaniMentions_model Absent (fun _ => 0%Z)
       mention_input
     = Normal {| formattedContent :=
                   span_html (js "@") (js "alice") ++ js " asked "
                   ++ span_html (js "@") (js "zani") ++ js "-bot something";
                 files := [] |}.
Proof. repeat split; vm_compute; reflexivity. Qed.

(** *** Attachments *)

(** The fallback address is defined as soon as the name fits [btoa]. *)
Lemma getActualFileUrl_latin1 (st : Storage) (fileName : jsstring) :
  forallb (fun c => c <=? 255) fileName = true ->
  exists u, getActualFileUrl st fileName = Normal u.
Proof.
  intros Hl. unfold getActualFileUrl, btoa. rewrite Hl.
  destruct (stored_url st fileName); [eauto|].
  destruct (one_of _ _); eauto.
Qed.

(** C9: for the text made of the marker, a space, [report.pdf], a line
    feed and [hello], whatever the store and the random sizes, and with a
    highlighter that leaves [hello] alone, the result has exactly one
    attachment, named [report.pdf] with type [application/pdf], and its
    markup is [hello]. *)
Theorem formatMessageContent_attachment_line
    (hl : jsstring -> jsstring) (st : Storage) (draw : nat -> Z) :
  hl (js "hello") = js "hello" ->
  exists f,
    formatMessageContent hl st draw attachment_input
    = Normal {| formattedContent := js "hello"; files := [f] |} /\
    name f = js "report.pdf" /\
    type f = js "application/pdf".
Proof.
  intros Hhl.
  destruct (getActualFileUrl_latin1 st (js "report.pdf")) as [u Hu];
    [vm_compute; reflexivity|].
  destruct (getFileSize st draw 0 (js "report.pdf")) as [sz k'] eqn:Hsz.
  exists {| name := js "report.pdf"; type := js "application/pdf";
            url := u; size := sz |}.
  split; [|split; reflexivity].
  unfold formatMessageContent, formatMessageContent_from.
  replace (exec_all filePattern attachment_input)
    with [(marker ++ js " report.pdf" ++ [10], [js "report.pdf"])]
    by (vm_compute; reflexivity).
  unfold loop, loop_body.
  change (trim (group 1 (snd (marker ++ js " report.pdf" ++ [10], [js "report.pdf"]))))
    with (js "report.pdf").
  rewrite Hu, Hsz. cbv beta iota zeta. unfold format_text.
  change (trim (remove_first (fst _) attachment_input)) with (js "hello").
  change (stage_url (stage_image (js "hello"))) with (js "hello").
  rewrite Hhl. reflexivity.
Qed.

Lemma formatMessageContent_attachment_line_witness :
  exists f,
    formatMessageContent highlightZaniMentions_model Absent (fun _ => 0%Z)
      attachment_input
    = Normal {| formattedContent := js "hello"; files := [f] |} /\
    name f = js "report.pdf" /\
    type f = js "application/pdf".
Proof.
  apply (formatMessageContent_attachment_line
           highlightZaniMentions_model Absent (fun _ => 0%Z)).
  vm_compute. reflexivity.
Defined.

(** *** Two runs over the same store *)

Lemma loop_same_up_to_placeholders (st : Storage) (d1 d2 : nat -> Z)
    (ms : list (jsstring * list jsstring)) :
  forall fs1 fs2 t k1 k2,
    map (without_placeholder st) fs1 = map (without_placeholder st) fs2 ->
    same_up_to_placeholders st
      (loop st d1 ms (fs1, t, k1)) (loop st d2 ms (fs2, t, k2)).
Proof.
  induction ms as [|m ms IH]; intros fs1 fs2 t k1 k2 Hfs; cbn [loop].
  - split; [exact Hfs | reflexivity].
  - unfold loop_body.
    destruct (getActualFileUrl st (trim (group 1 (snd m)))) as [u|e];
      [|reflexivity].
    unfold getFileSize.
    destruct (stored_size st (trim (group 1 (snd m)))) as [n|] eqn:Hs.
    + apply IH. rewrite !map_app, Hfs. reflexivity.
    + apply IH. rewrite !map_app, Hfs. cbn [map].
      unfold without_placeholder. cbn [name type url size]. rewrite Hs.
      reflexivity.
Qed.

(** C6, as the code has it: over the same store, two runs of
    [formatMessageContent] on the same text, whatever [Math.random] gives
    to each, both raise the same exception or return the same markup and
    the same attachments, up to the sizes that the store does not give
    (the random placeholders). *)
Theorem formatMessageContent_same_up_to_placeholders
    (hl : jsstring -> jsstring) (st : Storage) (d1 d2 : nat -> Z)
    (k1 k2 : nat) (content : jsstring) :
  without_placeholders st (formatMessageContent_from hl st d1 k1 content)
  = without_placeholders st (formatMessageContent_from hl st d2 k2 content).
Proof.
  unfold formatMessageContent_from.
  pose proof (loop_same_up_to_placeholders st d1 d2
                (exec_all filePattern content) [] [] content k1 k2 eq_refl) as H.
  destruct (loop st d1 _ _) as [[[fs1 t1] n1]|e1],
           (loop st d2 _ _) as [[[fs2 t2] n2]|e2];
    cbn [same_up_to_placeholders] in H; try contradiction.
  - destruct H as [Hfs ->]. cbn [without_placeholders formattedContent files].
    rewrite Hfs. reflexivity.
  - subst. reflexivity.
Qed.

(** C6 as stated fails: with no stored file, the size of the attachment of
    the line [a.txt] is what [Math.random] gives at that run, and two runs
    on the same text over the same store differ. *)
Lemma formatMessageContent_not_deterministic :
  formatMessageContent highlightZaniMentions_model Absent (fun _ => 0%Z)
    placeholder_input
  <> formatMessageContent highlightZaniMentions_model Absent (fun _ => 1%Z)
       placeholder_input.
Proof. vm_compute. discriminate. Qed.

(** *** When the transformation returns *)

Lemma loop_normal_latin1 (st : Storage) (draw : nat -> Z)
    (ms : list (jsstring * list jsstring)) :
  Forall (fun m => forallb (fun c => c <=? 255) (trim (group 1 (snd m))) = true) ms ->
  forall s, exists s', loop st draw ms s = Normal s'.
Proof.
  induction 1 as [|m ms Hm _ IH]; intros s; cbn [loop]; [eauto|].
  destruct s as [[fs t] k]. unfold loop_body.
  destruct (getActualFileUrl_latin1 st _ Hm) as [u ->].
  destruct (getFileSize st draw k _) as [sz k']. apply IH.
Qed.

(** [formatMessageContent] returns a result whenever the file name of
    every attachment line fits [btoa], in particular when the text has no
    attachment line. *)
Lemma formatMessageContent_normal_latin1
    (hl : jsstring -> jsstring) (st : Storage) (draw : nat -> Z)
    (content : jsstring) :
  Forall (fun m => forallb (fun c => c <=? 255) (trim (group 1 (snd m))) = true)
         (exec_all filePattern content) ->
  exists r, formatMessageContent hl st draw content = Normal r.
Proof.
  intros H. unfold formatMessageContent, formatMessageContent_from.
  destruct (loop_normal_latin1 st draw _ H ([], content, 0%nat))
    as [[[fs t] k] ->].
  eauto.
Qed.

End FormatFacts.

(** ** Properties of the dispatch effect *)

Module DispatchFacts.
Import Js Dispatch.

Section Facts.

Variable containsZaniMention : jsstring -> bool.
Variable extractZaniQuery : jsstring -> option jsstring.
Variable getMessages : jsstring -> option (list Message).
Variable message : Message.

Local Abbreviation fire :=
  (processZani containsZaniMention extractZaniQuery getMessages message).
Local Abbreviation step' :=
  (step containsZaniMention extractZaniQuery getMessages message).
Local Abbreviation run' :=
  (run containsZaniMention extractZaniQuery getMessages message).
Local Abbreviation stored w :=
  (truthy_str (getStoredZaniResponse w (id message))).
Local Abbreviation the_call := (Dispatch.the_call getMessages message).
Local Abbreviation inv := (Dispatch.inv extractZaniQuery getMessages message).

(** The three ways through [processZani]: a stored response is shown, a
    query is dispatched, or nothing happens. *)
Lemma processZani_cases (b : bool) (w : World) :
  (exists s, content message <> [] /\
             containsZaniMention (content message) = true /\
             stored w = Some s /\ fire b w = setZaniResponse s w)
  \/ (exists q, stored w = None /\ (id message ∉ processed w) /\ b = false /\
                truthy_str (extractZaniQuery (content message)) = Some q /\
                fire b w = processZaniQuery (the_call q) (setIsProcessingZani true w))
  \/ fire b w = w.
Proof.
  unfold processZani.
  destruct (content message) as [|c cs] eqn:Hc; [auto|].
  destruct (containsZaniMention (c :: cs)) eqn:Hm; [|auto].
  destruct (stored w) as [s|] eqn:Hs.
  { left. exists s.
    split; [discriminate|split; [reflexivity|split; reflexivity]]. }
  unfold isMessageProcessed.
  destruct (bool_decide (id message ∈ processed w)) eqn:Hp; [auto|].
  destruct b; [auto|]. cbn [negb andb].
  destruct (truthy_str (extractZaniQuery (c :: cs))) as [q|] eqn:Hq; [|auto].
  right. left. exists q.
  apply bool_decide_eq_false in Hp. rewrite <- Hc. auto.
Qed.

Lemma inv_mount (rs : gmap jsstring jsstring) (ps : gset jsstring) :
  inv rs ps (mount rs ps).
Proof.
  split; cbn [mount calls pending responses processed zaniResponse length];
    auto; try lia; congruence.
Qed.

Lemma inv_pending_le_1 rs ps w : inv rs ps w -> (pending w <= 1)%nat.
Proof.
  intros [Hc Hp _ _ _ _].
  destruct Hc as [Hc|(q & _ & Hc)]; rewrite Hc in Hp; cbn in Hp; lia.
Qed.

Lemma inv_fire rs ps (b : bool) (w : World) :
  inv rs ps w -> inv rs ps (fire b w).
Proof.
  intros Hi.
  destruct (processZani_cases b w)
    as [(s & _ & _ & Hs & ->)|[(q & Hs & Hp & _ & Hq & ->)| ->]]; [| |exact Hi].
  - destruct Hi as [Hc Hp Hm Hb Hw Hz].
    split; unfold getStoredZaniResponse in *;
      cbn [setZaniResponse calls pending responses processed zaniResponse];
      auto.
    + intros Hn. destruct (Hw Hn) as [_ Hw2]. congruence.
    + congruence.
  - destruct Hi as [Hc Hpe Hm Hb Hw Hz].
    assert (Hnil : calls w = []).
    { destruct (calls w) eqn:E; [reflexivity|].
      exfalso. apply Hp, Hm. discriminate. }
    assert (Hp0 : pending w = 0%nat) by (rewrite Hnil in Hpe; cbn in Hpe; lia).
    split; unfold getStoredZaniResponse in *;
      cbn [processZaniQuery setIsProcessingZani calls pending responses
           processed zaniResponse the_call call_messageId].
    + right. exists q. rewrite Hnil. auto.
    + rewrite Hnil, Hp0. cbn. lia.
    + intros _. apply elem_of_union. left. apply elem_of_singleton. reflexivity.
    + rewrite Hnil. intros Hx. discriminate Hx.
    + intros _. split; [apply Hz; assumption | exact Hs].
    + rewrite Hnil. intros _ Hx. discriminate Hx.
Qed.

Lemma inv_settled rs ps (w : World) :
  inv rs ps w -> pending w <> 0%nat ->
  calls w <> [] /\ pending (settle w) = 0%nat.
Proof.
  intros Hi Hn. pose proof (inv_pending_le_1 _ _ _ Hi) as H1.
  destruct Hi as [Hc Hp _ _ _ _]. split.
  - intros E. rewrite E in Hp. cbn in Hp. lia.
  - cbn [settle pending]. lia.
Qed.

Lemma inv_fulfilled rs ps (r : jsstring) (w : World) :
  inv rs ps w -> pending w <> 0%nat ->
  inv rs ps (processZani_fulfilled r (settle w)).
Proof.
  intros Hi Hn. destruct (inv_settled _ _ _ Hi Hn) as [Hne H0].
  destruct Hi as [Hc Hp Hm Hb Hw Hz].
  assert (Hcalls : calls (processZani_fulfilled r (settle w)) = calls w)
    by (destruct r; reflexivity).
  assert (Hpend : pending (processZani_fulfilled r (settle w)) = 0%nat)
    by (destruct r; exact H0).
  assert (Hproc : processed (processZani_fulfilled r (settle w)) = processed w)
    by (destruct r; reflexivity).
  split; rewrite ?Hcalls, ?Hpend, ?Hproc; auto; try lia; congruence.
Qed.

Lemma inv_rejected rs ps (w : World) :
  inv rs ps w -> pending w <> 0%nat ->
  inv rs ps (processZani_rejected message (settle w)).
Proof.
  intros Hi Hn. destruct (inv_settled _ _ _ Hi Hn) as [Hne H0].
  destruct Hi as [Hc Hp Hm Hb Hw Hz].
  split; cbn [processZani_rejected setIsProcessingZani setZaniResponse
              storeZaniResponse calls pending processed settle] in *.
  - exact Hc.
  - lia.
  - exact Hm.
  - intros E. contradiction.
  - intros E. contradiction.
  - intros _ E. contradiction.
Qed.

Lemma inv_step rs ps (e : event) (w w' : World) :
  inv rs ps w -> step' e w = Some w' -> inv rs ps w'.
Proof.
  intros Hi Hs. destruct e as [b|r|]; cbn [step] in Hs.
  - assert (w' = fire b w) as ->
      by (destruct b, (calls w); congruence).
    apply inv_fire, Hi.
  - destruct (pending w) eqn:Hp; [discriminate|].
    injection Hs as <-. apply inv_fulfilled; [exact Hi | lia].
  - destruct (pending w) eqn:Hp; [discriminate|].
    injection Hs as <-. apply inv_rejected; [exact Hi | lia].
Qed.

Lemma inv_run rs ps (tr : list event) :
  forall w w', inv rs ps w -> run' tr w = Some w' -> inv rs ps w'.
Proof.
  induction tr as [|e tr IH]; intros w w' Hi Hr; cbn [run] in Hr.
  - congruence.
  - destruct (step' e w) as [w1|] eqn:Hs; [|discriminate].
    eapply IH; [eapply inv_step; eassumption | exact Hr].
Qed.

(** *** The ways through the effect, under their conditions *)

Lemma processZani_shows_stored (b : bool) (w : World) (s : jsstring) :
  content message <> [] ->
  containsZaniMention (content message) = true ->
  stored w = Some s ->
  fire b w = setZaniResponse s w.
Proof.
  intros Hc Hm Hs. unfold processZani.
  destruct (content message) as [|c cs]; [contradiction|].
  rewrite Hm, Hs. reflexivity.
Qed.

Lemma processZani_dispatches (q : jsstring) (w : World) :
  mention_with_query containsZaniMention extractZaniQuery message q ->
  stored w = None ->
  id message ∉ processed w ->
  fire false w = processZaniQuery (the_call q) (setIsProcessingZani true w).
Proof.
  intros (Hc & Hm & Hq) Hs Hp. unfold processZani, isMessageProcessed.
  destruct (content message) as [|c cs] eqn:E; [contradiction|].
  rewrite Hm, Hs, Hq, bool_decide_eq_false_2 by exact Hp.
  cbn [negb andb]. unfold the_call. rewrite E. reflexivity.
Qed.

(** Calls are never forgotten. *)
Lemma step_calls_kept (e : event) (w w' : World) :
  step' e w = Some w' -> calls w <> [] -> calls w' <> [].
Proof.
  intros Hs Hne. destruct e as [b|r|]; cbn [step] in Hs.
  - assert (w' = fire b w) as -> by (destruct b, (calls w); congruence).
    destruct (processZani_cases b w)
      as [(s & _ & _ & _ & ->)|[(q & _ & _ & _ & _ & ->)| ->]];
      cbn [setZaniResponse processZaniQuery setIsProcessingZani calls];
      [exact Hne| |exact Hne].
    intros E. apply app_eq_nil in E as [_ E]. discriminate E.
  - destruct (pending w); [discriminate|]. injection Hs as <-.
    destruct r; exact Hne.
  - destruct (pending w); [discriminate|]. injection Hs as <-. exact Hne.
Qed.

Lemma run_calls_nonempty (q : jsstring) rs ps (tr : list event) :
  mention_with_query containsZaniMention extractZaniQuery message q ->
  unanswered message (mount rs ps) ->
  forall w w',
    inv rs ps w -> run' tr w = Some w' ->
    calls w <> [] \/ (0 < fires tr)%nat ->
    calls w' <> [].
Proof.
  intros Hq [Hu1 Hu2].
  induction tr as [|e tr IH]; intros w w' Hi Hr Hor; cbn [run] in Hr.
  - injection Hr as <-. destruct Hor as [H|H]; [exact H|].
    cbn in H. lia.
  - destruct (step' e w) as [w1|] eqn:Hs; [|discriminate].
    apply (IH w1 w'); [eapply inv_step; eassumption | exact Hr |].
    destruct (calls w) as [|c0 cs0] eqn:Hc.
    + destruct e as [b|r|].
      * left. cbn [step] in Hs. rewrite Hc in Hs.
        destruct b; [discriminate|]. injection Hs as <-.
        destruct (inv_before Hi Hc) as [Hr1 Hr2].
        rewrite (processZani_dispatches q).
        -- cbn [processZaniQuery calls]. intros E.
           apply app_eq_nil in E as [_ E]. discriminate E.
        -- exact Hq.
        -- unfold getStoredZaniResponse. rewrite Hr1. exact Hu1.
        -- rewrite Hr2. exact Hu2.
      * right. destruct Hor as [H|H]; [contradiction|exact H].
      * right. destruct Hor as [H|H]; [contradiction|exact H].
    + left. eapply step_calls_kept; [exact Hs|]. rewrite Hc. discriminate.
Qed.

(** C1: for a message that mentions the assistant with a query, mounted
    with no stored response and not marked as processed, however the
    firings of the effect (each with the flag its closure holds) and the
    settlements of the query interleave, at most one call of the query
    service is pending at any time, and as soon as the effect has fired
    once there has been exactly one call, with the arguments of this
    message. *)
Theorem processZani_at_most_once (query : jsstring)
    (rs : gmap jsstring jsstring) (ps : gset jsstring)
    (tr : list event) (w : World) :
  mention_with_query containsZaniMention extractZaniQuery message query ->
  unanswered message (mount rs ps) ->
  run' tr (mount rs ps) = Some w ->
  (pending w <= 1)%nat /\
  ((0 < fires tr)%nat -> calls w = [the_call query]).
Proof.
  intros Hq Hu Hr.
  pose proof (inv_run rs ps tr _ _ (inv_mount rs ps) Hr) as Hi.
  split; [eapply inv_pending_le_1; exact Hi|].
  intros Hf.
  pose proof (run_calls_nonempty query rs ps tr Hq Hu _ _
                (inv_mount rs ps) Hr (or_intror Hf)) as Hne.
  destruct (inv_calls Hi) as [E|(q' & Hq' & E)]; [contradiction|].
  destruct Hq as (_ & _ & Hq). congruence.
Qed.

(** C2: for a message that mentions the assistant and whose response can
    be read back from the store, two firings of the effect in a row both
    show the stored text, and neither calls the query service nor changes
    the store. *)
Theorem processZani_answered_idempotent (text : jsstring) (b1 b2 : bool)
    (w : World) :
  content message <> [] ->
  containsZaniMention (content message) = true ->
  answered message w text ->
  zaniResponse (fire b1 w) = Some text /\
  zaniResponse (fire b2 (fire b1 w)) = Some text /\
  calls (fire b1 w) = calls w /\
  calls (fire b2 (fire b1 w)) = calls w /\
  pending (fire b2 (fire b1 w)) = pending w /\
  responses (fire b2 (fire b1 w)) = responses w.
Proof.
  intros Hc Hm Ha. unfold answered in Ha.
  rewrite (processZani_shows_stored b1 w text Hc Hm Ha).
  rewrite (processZani_shows_stored b2 (setZaniResponse text w) text Hc Hm Ha).
  repeat split.
Qed.

(** Once the fixed error text is stored for the message, it stays, and
    nothing calls the query service any more. *)
Lemma run_after_error (tr : list event) :
  content message <> [] ->
  containsZaniMention (content message) = true ->
  forall w w',
    responses w !! id message = Some errorResponse ->
    run' tr w = Some w' ->
    responses w' !! id message = Some errorResponse /\ calls w' = calls w.
Proof.
  intros Hc Hm.
  induction tr as [|e tr IH]; intros w w' Hs Hr; cbn [run] in Hr.
  - injection Hr as <-. auto.
  - destruct (step' e w) as [w1|] eqn:Hst; [|discriminate].
    assert (responses w1 !! id message = Some errorResponse /\ calls w1 = calls w)
      as [Hs1 Hc1].
    { destruct e as [b|r|]; cbn [step] in Hst.
      - assert (w1 = fire b w) as -> by (destruct b, (calls w); congruence).
        rewrite (processZani_shows_stored b w errorResponse Hc Hm)
          by (unfold getStoredZaniResponse; rewrite Hs; reflexivity).
        auto.
      - destruct (pending w); [discriminate|]. injection Hst as <-.
        destruct r; auto.
      - destruct (pending w); [discriminate|]. injection Hst as <-.
        cbn [processZani_rejected setIsProcessingZani setZaniResponse
             storeZaniResponse responses calls settle].
        split; [apply lookup_insert_eq | reflexivity]. }
    destruct (IH w1 w' Hs1 Hr) as [H1 H2]. split; congruence.
Qed.

(** C3: when the query of a message that mentions the assistant is
    rejected, the effect stores the fixed error text under the id of the
    message, clears [isProcessingZani] and shows the text; after that,
    whatever happens, every firing of the effect shows that same text and
    no call of the query service is ever added. *)
Theorem processZani_failure_permanent (w w' : World) :
  content message <> [] ->
  containsZaniMention (content message) = true ->
  step' Reject w = Some w' ->
  responses w' = <[id message := errorResponse]> (responses w) /\
  isProcessingZani w' = false /\
  zaniResponse w' = Some errorResponse /\
  forall (tr : list event) (w'' : World) (b : bool),
    run' tr w' = Some w'' ->
    zaniResponse (fire b w'') = Some errorResponse /\
    calls (fire b w'') = calls w'.
Proof.
  intros Hc Hm Hs. cbn [step] in Hs.
  destruct (pending w); [discriminate|]. injection Hs as <-.
  split; [reflexivity|]. split; [reflexivity|]. split; [reflexivity|].
  intros tr w'' b Hr.
  destruct (run_after_error tr Hc Hm _ _ (lookup_insert_eq _ _ _) Hr)
    as [Hs2 Hc2].
  rewrite (processZani_shows_stored b w'' errorResponse Hc Hm)
    by (unfold getStoredZaniResponse; rewrite Hs2; reflexivity).
  split; [reflexivity | exact Hc2].
Qed.


(** Once the message is marked, no firing calls the query service. *)
Lemma run_marked_no_call (tr : list event) :
  forall w w',
    id message ∈ processed w ->
    run' tr w = Some w' ->
    id message ∈ processed w' /\ calls w' = calls w.
Proof.
  induction tr as [|e tr IH]; intros w w' Hp Hr; cbn [run] in Hr.
  - injection Hr as <-. auto.
  - destruct (step' e w) as [w1|] eqn:Hst; [|discriminate].
    assert (id message ∈ processed w1 /\ calls w1 = calls w) as [Hp1 Hc1].
    { destruct e as [b|r|]; cbn [step] in Hst.
      - assert (w1 = fire b w) as -> by (destruct b, (calls w); congruence).
        destruct (processZani_cases b w)
          as [(s & _ & _ & _ & ->)|[(q & _ & Hn & _)| ->]];
          [auto|contradiction|auto].
      - destruct (pending w); [discriminate|]. injection Hst as <-.
        destruct r; auto.
      - destruct (pending w); [discriminate|]. injection Hst as <-. auto. }
    destruct (IH w1 w' Hp1 Hr) as [H1 H2]. split; congruence.
Qed.

(** C10, as the code and the modelled service have it: when the query of
    the message is fulfilled with the empty string, the effect shows
    nothing and stores nothing, and clears [isProcessingZani]; the message
    is left without a response, but it is marked as processed since its
    query was dispatched, and whatever happens afterwards no call of the
    query service is added: there is no second dispatch. *)
Theorem processZani_empty_response
    (rs : gmap jsstring jsstring) (ps : gset jsstring)
    (tr : list event) (w w' : World) :
  run' tr (mount rs ps) = Some w ->
  step' (Resolve []) w = Some w' ->
  zaniResponse w' = None /\
  stored w' = None /\
  responses w' = responses w /\
  isProcessingZani w' = false /\
  id message ∈ processed w' /\
  forall (tr' : list event) (w'' : World),
    run' tr' w' = Some w'' -> calls w'' = calls w'.
Proof.
  intros Hr Hs.
  pose proof (inv_run rs ps tr _ _ (inv_mount rs ps) Hr) as Hi.
  cbn [step] in Hs. destruct (pending w) eqn:Hp; [discriminate|].
  injection Hs as <-.
  assert (Hn : pending w <> 0%nat) by lia.
  destruct (inv_waiting Hi Hn) as [Hz Hst].
  destruct (inv_settled _ _ _ Hi Hn) as [Hne _].
  pose proof (inv_marked Hi Hne) as Hm.
  split; [exact Hz|]. split; [exact Hst|].
  split; [reflexivity|]. split; [reflexivity|]. split; [exact Hm|].
  intros tr' w'' Hr'.
  refine (proj2 (run_marked_no_call tr' _ _ _ Hr')). exact Hm.
Qed.

End Facts.

(** *** At a concrete message *)

Local Abbreviation fire0 :=
  (processZani containsZaniMention_model extractZaniQuery_model no_history
     zani_message).
Local Abbreviation step0 :=
  (step containsZaniMention_model extractZaniQuery_model no_history
     zani_message).
Local Abbreviation run0 :=
  (run containsZaniMention_model extractZaniQuery_model no_history
     zani_message).

Lemma processZani_at_most_once_witness :
  exists w,
    run0 sample_trace empty_mount = Some w /\
    (pending w <= 1)%nat /\
    ((0 < fires sample_trace)%nat ->
     calls w = [the_call no_history zani_message (js "what is up")]).
Proof.
  eexists. split; [vm_compute; reflexivity|].
  apply (processZani_at_most_once containsZaniMention_model
           extractZaniQuery_model no_history zani_message (js "what is up")
           ∅ ∅ sample_trace).
  - split; [discriminate|]. split; vm_compute; reflexivity.
  - split; [reflexivity | apply not_elem_of_empty].
  - vm_compute. reflexivity.
Defined.

Lemma processZani_answered_idempotent_witness :
  zaniResponse (fire0 false answered_world) = Some (js "All good.") /\
  zaniResponse (fire0 false (fire0 false answered_world)) = Some (js "All good.") /\
  calls (fire0 false answered_world) = calls answered_world /\
  calls (fire0 false (fire0 false answered_world)) = calls answered_world /\
  pending (fire0 false (fire0 false answered_world)) = pending answered_world /\
  responses (fire0 false (fire0 false answered_world)) = responses answered_world.
Proof.
  apply (processZani_answered_idempotent containsZaniMention_model
           extractZaniQuery_model no_history zani_message (js "All good.")
           false false answered_world).
  - discriminate.
  - vm_compute. reflexivity.
  - vm_compute. reflexivity.
Defined.

Lemma processZani_failure_permanent_witness :
  exists w',
    step0 Reject waiting_world = Some w' /\
    responses w' = <[id zani_message := errorResponse]> (responses waiting_world) /\
    isProcessingZani w' = false /\
    zaniResponse w' = Some errorResponse /\
    forall (tr : list event) (w'' : World) (b : bool),
      run0 tr w' = Some w'' ->
      zaniResponse (fire0 b w'') = Some errorResponse /\
      calls (fire0 b w'') = calls w'.
Proof.
  eexists. split; [vm_compute; reflexivity|].
  apply (processZani_failure_permanent containsZaniMention_model
           extractZaniQuery_model no_history zani_message waiting_world).
  - discriminate.
  - vm_compute. reflexivity.
  - vm_compute. reflexivity.
Defined.


(** The same at one message: the query of [@zani what is up] is fulfilled
    with [hi]; the text is shown, and nothing is stored under the id of
    the message, before or after. *)
Lemma processZani_success_not_in_store :
  exists w,
    run0 [Fire false; Resolve (js "hi")] empty_mount = Some w /\
    zaniResponse w = Some (js "hi") /\
    getStoredZaniResponse w (id zani_message) = None.
Proof.
  eexists. split; [vm_compute; reflexivity|].
  split; vm_compute; reflexivity.
Qed.

Lemma processZani_empty_response_witness :
  exists w',
    step0 (Resolve []) waiting_world = Some w' /\
    zaniResponse w' = None /\
    truthy_str (getStoredZaniResponse w' (id zani_message)) = None /\
    responses w' = responses waiting_world /\
    isProcessingZani w' = false /\
    id zani_message ∈ processed w' /\
    forall (tr' : list event) (w'' : World),
      run0 tr' w' = Some w'' -> calls w'' = calls w'.
Proof.
  eexists. split; [vm_compute; reflexivity|].
  apply (processZani_empty_response containsZaniMention_model
           extractZaniQuery_model no_history zani_message ∅ ∅ [Fire false]
           waiting_world).
  - vm_compute. reflexivity.
  - vm_compute. reflexivity.
Defined.

(** C10 as stated fails: after the query has been fulfilled with the empty
    string, the next firing of the effect makes no call: there is still the
    one call of the first dispatch, and nothing is pending. *)
Lemma processZani_no_dispatch_after_empty :
  exists w,
    run0 [Fire false; Resolve []; Fire false] empty_mount = Some w /\
    zaniResponse w = None /\
    length (calls w) = 1%nat /\
    pending w = 0%nat.
Proof.
  eexists. split; [vm_compute; reflexivity|].
  repeat split; vm_compute; reflexivity.
Qed.

End DispatchFacts.

(** ** How the matcher and the replacement behave on a text in parts *)

Module EngineFacts.
Import Js.

Lemma length_app_sub {A : Type} (a b : list A) :
  (length (a ++ b) - length b)%nat = length a.
Proof. rewrite length_app. lia. Qed.

Lemma take_matched {A : Type} (a b : list A) :
  take (length (a ++ b) - length b) (a ++ b) = a.
Proof. rewrite length_app_sub. apply take_app_length. Qed.

(** Stepping over the rest of a match. *)
Lemma replace_from_skip (r : regex) f (m s : jsstring) :
  replace_from r f (m ++ s) (length m) = replace_from r f s 0.
Proof.
  induction m as [|c m IH]; [reflexivity|].
  cbn [app length replace_from]. exact IH.
Qed.

(** A match at the head is replaced, and the replacement goes on behind
    it. *)
Lemma replace_from_match (r : regex) f (m s : jsstring) caps :
  m <> [] ->
  match_here r (m ++ s) = Some (m, caps) ->
  replace_from r f (m ++ s) 0 = f m caps ++ replace_from r f s 0.
Proof.
  intros Hne Hm. destruct m as [|c m]; [contradiction|].
  cbn [app replace_from]. cbn [app] in Hm. rewrite Hm.
  cbn [length]. rewrite replace_from_skip. reflexivity.
Qed.

(** A stretch in which no match starts is copied. *)
Lemma replace_from_copy (r : regex) f (a s : jsstring) :
  (forall a1 a2, a = a1 ++ a2 -> a2 <> [] -> match_here r (a2 ++ s) = None) ->
  replace_from r f (a ++ s) 0 = a ++ replace_from r f s 0.
Proof.
  induction a as [|c a IH]; intros Hno; [reflexivity|].
  pose proof (Hno [] (c :: a) eq_refl ltac:(discriminate)) as H0.
  cbn [app] in H0. cbn [app replace_from]. rewrite H0.
  f_equal. apply IH. intros a1 a2 -> Hne.
  apply (Hno (c :: a1) a2 eq_refl Hne).
Qed.

(** At the end of the text nothing is left to replace, for a pattern that
    does not match the empty text. *)
Lemma replace_from_nil (r : regex) f :
  match_here r [] = None -> replace_from r f [] 0 = [].
Proof. intros H. cbn [replace_from]. rewrite H. reflexivity. Qed.

(** The same three facts for the list of matches. *)
Lemma matches_from_skip (r : regex) (m s : jsstring) :
  matches_from r (m ++ s) (length m) = matches_from r s 0.
Proof.
  induction m as [|c m IH]; [reflexivity|].
  cbn [app length matches_from]. exact IH.
Qed.

Lemma matches_from_match (r : regex) (m s : jsstring) caps :
  m <> [] ->
  match_here r (m ++ s) = Some (m, caps) ->
  matches_from r (m ++ s) 0 = (m, caps) :: matches_from r s 0.
Proof.
  intros Hne Hm. destruct m as [|c m]; [contradiction|].
  cbn [app matches_from]. cbn [app] in Hm. rewrite Hm.
  cbn [length pred]. rewrite matches_from_skip. reflexivity.
Qed.

Lemma matches_from_copy (r : regex) (a s : jsstring) :
  (forall a1 a2, a = a1 ++ a2 -> a2 <> [] -> match_here r (a2 ++ s) = None) ->
  matches_from r (a ++ s) 0 = matches_from r s 0.
Proof.
  induction a as [|c a IH]; intros Hno; [reflexivity|].
  pose proof (Hno [] (c :: a) eq_refl ltac:(discriminate)) as H0.
  cbn [app] in H0. cbn [app matches_from]. rewrite H0.
  apply IH. intros a1 a2 -> Hne.
  apply (Hno (c :: a1) a2 eq_refl Hne).
Qed.

(** A greedy quantifier runs to the end of the characters of its class
    and stops there when what follows is accepted. *)
Lemma many_greedy_run (p : N -> bool) (min : nat) (w rest : jsstring)
    (k : jsstring -> option mres) (x : mres) :
  forallb p w = true ->
  match rest with [] => True | c :: _ => p c = false end ->
  (min <= length w)%nat ->
  k rest = Some x ->
  many true p min (w ++ rest) k = Some x.
Proof.
  intros Hw Hr. revert min.
  induction w as [|c w IH]; intros min Hmin Hk.
  - cbn [length] in Hmin. assert (min = 0%nat) as -> by lia.
    cbn [app]. destruct rest as [|c rest]; cbn [many]; [exact Hk|].
    rewrite Hr. exact Hk.
  - cbn [forallb] in Hw. apply andb_true_iff in Hw as [Hc Hw].
    cbn [app many]. rewrite Hc.
    rewrite (IH Hw (pred min)); [reflexivity| cbn [length] in Hmin; lia | exact Hk].
Qed.

(** A lazy quantifier stops at the first place where what follows is
    accepted. *)
Lemma many_lazy_run (p : N -> bool) (w rest : jsstring)
    (k : jsstring -> option mres) (x : mres) :
  forallb p w = true ->
  (forall w1 w2, w = w1 ++ w2 -> w2 <> [] -> k (w2 ++ rest) = None) ->
  k rest = Some x ->
  many false p 0 (w ++ rest) k = Some x.
Proof.
  intros Hw Hno Hk.
  induction w as [|c w IH].
  - cbn [app]. destruct rest as [|c rest]; cbn [many]; rewrite Hk; reflexivity.
  - cbn [forallb] in Hw. apply andb_true_iff in Hw as [Hc Hw].
    pose proof (Hno [] (c :: w) eq_refl ltac:(discriminate)) as H0.
    cbn [app] in H0. cbn [app many pred]. rewrite H0, Hc.
    apply IH; [exact Hw|].
    intros w1 w2 -> Hne. apply (Hno (c :: w1) w2 eq_refl Hne).
Qed.

(** A quantifier whose continuation refuses every place does not match. *)
Lemma many_refused (g : bool) (p : N -> bool) (min : nat) (s : jsstring)
    (k : jsstring -> option mres) :
  (forall s1 s2, s = s1 ++ s2 -> k s2 = None) ->
  many g p min s k = None.
Proof.
  revert min. induction s as [|c s IH]; intros min Hno.
  - cbn [many]. destruct min; [apply (Hno [] [] eq_refl) | reflexivity].
  - cbn [many].
    assert (Hmore : (if p c then many g p (pred min) s k else None) = None).
    { destruct (p c); [|reflexivity]. apply IH.
      intros s1 s2 ->. apply (Hno (c :: s1) s2 eq_refl). }
    assert (Hstop : match min with O => k (c :: s) | S _ => None end = None).
    { destruct min; [apply (Hno [] (c :: s) eq_refl) | reflexivity]. }
    rewrite Hmore, Hstop. destruct g; reflexivity.
Qed.

Lemma strip_prefix_app (p s : jsstring) : strip_prefix p (p ++ s) = Some s.
Proof.
  induction p as [|a p IH]; [destruct s; reflexivity|].
  cbn [app strip_prefix]. rewrite N.eqb_refl. exact IH.
Qed.

Lemma strip_prefix_head (a b : N) (p s : jsstring) :
  a <> b -> strip_prefix (a :: p) (b :: s) = None.
Proof.
  intros Hne. cbn [strip_prefix].
  destruct (N.eqb_spec a b); [contradiction | reflexivity].
Qed.

End EngineFacts.

(** ** What each rewriting stage does to a text in parts *)

Module StageFacts.
Import Js Format EngineFacts.

Lemma forallb_suffix_head (p : N -> bool) (a a1 : jsstring) (c : N) (a2 : jsstring) :
  forallb p a = true -> a = a1 ++ c :: a2 -> p c = true.
Proof.
  intros H ->. rewrite forallb_app in H. apply andb_true_iff in H as [_ H].
  cbn [forallb] in H. apply andb_true_iff in H as [H _]. exact H.
Qed.

Lemma is_not_true (d c : N) : is_not d c = true -> c <> d.
Proof.
  unfold is_not. destruct (N.eqb_spec c d); [discriminate | auto].
Qed.

Lemma is_not_refl (d : N) : is_not d d = false.
Proof. unfold is_not. rewrite N.eqb_refl. reflexivity. Qed.

(** *** The emphasis stages *)

Lemma delimited_no_match_head (d c : N) (s : jsstring) :
  c <> d -> match_here (delimited d) (c :: s) = None.
Proof.
  intros Hne. unfold match_here, delimited. cbn [mt].
  rewrite strip_prefix_head by congruence. reflexivity.
Qed.

Lemma delimited_no_match_nil (d : N) : match_here (delimited d) [] = None.
Proof. reflexivity. Qed.

Lemma delimited_match (d : N) (b rest : jsstring) :
  b <> [] ->
  forallb (is_not d) b = true ->
  match_here (delimited d) ((d :: b ++ [d]) ++ rest)
  = Some (d :: b ++ [d], [b]).
Proof.
  intros Hne Hb. unfold match_here, delimited. cbn [mt].
  replace ((d :: b ++ [d]) ++ rest) with ([d] ++ (b ++ d :: rest))
    by (cbn [app]; rewrite <- app_assoc; reflexivity).
  rewrite strip_prefix_app.
  rewrite (many_greedy_run (is_not d) 1 b (d :: rest) _ (rest, [b])).
  - replace ([d] ++ b ++ d :: rest) with ((d :: b ++ [d]) ++ rest)
      by (cbn [app]; rewrite <- app_assoc; reflexivity).
    rewrite take_matched. reflexivity.
  - exact Hb.
  - apply is_not_refl.
  - destruct b; [contradiction | cbn [length]; lia].
  - change (d :: rest) with ([d] ++ rest) at 1. rewrite strip_prefix_app.
    rewrite (take_matched b (d :: rest)). reflexivity.
Qed.

(** The first delimiter is paired with the next one, whatever stands
    between them, and the replacement goes on after the pair. *)
Lemma delimited_replace (d : N) f (a b rest : jsstring) :
  forallb (is_not d) a = true ->
  forallb (is_not d) b = true ->
  b <> [] ->
  replace_all (delimited d) f (a ++ (d :: b ++ [d]) ++ rest)
  = a ++ f (d :: b ++ [d]) [b] ++ replace_all (delimited d) f rest.
Proof.
  intros Ha Hb Hne. unfold replace_all.
  rewrite replace_from_copy.
  - rewrite (replace_from_match _ _ _ _ [b]);
      [reflexivity | discriminate | apply delimited_match; assumption].
  - intros a1 a2 Ha12 Hne2. destruct a2 as [|c a2]; [contradiction|].
    cbn [app]. apply delimited_no_match_head, is_not_true.
    exact (forallb_suffix_head _ _ _ _ _ Ha Ha12).
Qed.

(** A delimiter that is never closed stays in the text. *)
Lemma delimited_unclosed (d : N) f (a b : jsstring) :
  forallb (is_not d) a = true ->
  forallb (is_not d) b = true ->
  replace_all (delimited d) f (a ++ d :: b) = a ++ d :: b.
Proof.
  intros Ha Hb. unfold replace_all.
  assert (Hcopy : forall s, forallb (is_not d) s = true ->
                            replace_from (delimited d) f s 0 = s).
  { intros s Hs. rewrite <- (app_nil_r s) at 1.
    rewrite replace_from_copy, replace_from_nil, app_nil_r;
      [reflexivity | apply delimited_no_match_nil |].
    intros a1 a2 Ha12 Hne2. destruct a2 as [|c a2]; [contradiction|].
    cbn [app]. apply delimited_no_match_head, is_not_true.
    exact (forallb_suffix_head _ _ _ _ _ Hs Ha12). }
  rewrite replace_from_copy.
  - f_equal. cbn [replace_from].
    assert (Hm : match_here (delimited d) (d :: b) = None).
    { unfold match_here, delimited. cbn [mt].
      change (d :: b) with ([d] ++ b). rewrite strip_prefix_app.
      rewrite many_refused; [reflexivity|].
      intros s1 s2 Hs. cbn [mt].
      destruct s2 as [|c s2]; [reflexivity|].
      rewrite strip_prefix_head; [reflexivity|].
      intros ->. apply (is_not_true c c); [|reflexivity].
      exact (forallb_suffix_head _ _ _ _ _ Hb Hs). }
    rewrite Hm. f_equal. apply Hcopy, Hb.
  - intros a1 a2 Ha12 Hne2. destruct a2 as [|c a2]; [contradiction|].
    cbn [app]. apply delimited_no_match_head, is_not_true.
    exact (forallb_suffix_head _ _ _ _ _ Ha Ha12).
Qed.

(** X1. Emphasis: in each of the three emphasis stages the first delimiter is
    paired with the next one, whatever stands between them (at least one
    character), and the stage goes on after the pair. *)
Theorem emphasis_pairs_first_two (a b rest : jsstring) :
  b <> [] ->
  (forallb (is_not 42) (a ++ b) = true ->
   stage_bold (a ++ js "*" ++ b ++ js "*" ++ rest)
   = a ++ js "<strong>" ++ b ++ js "</strong>" ++ stage_bold rest)
  /\ (forallb (is_not 95) (a ++ b) = true ->
      stage_italic (a ++ js "_" ++ b ++ js "_" ++ rest)
      = a ++ js "<em>" ++ b ++ js "</em>" ++ stage_italic rest)
  /\ (forallb (is_not 96) (a ++ b) = true ->
      stage_code (a ++ js "`" ++ b ++ js "`" ++ rest)
      = a ++ code_html b ++ stage_code rest).
Proof.
  intros Hne.
  assert (Hshape : forall d, a ++ [d] ++ b ++ [d] ++ rest
                             = a ++ (d :: b ++ [d]) ++ rest).
  { intros d. cbn [app]. rewrite <- app_assoc. reflexivity. }
  repeat split; intros Hab; rewrite forallb_app in Hab;
    apply andb_true_iff in Hab as [Ha Hb].
  - change (js "*") with [42]. rewrite Hshape. unfold stage_bold, boldRegex.
    rewrite delimited_replace by assumption.
    cbn [group nth pred]. rewrite <- !app_assoc. reflexivity.
  - change (js "_") with [95]. rewrite Hshape. unfold stage_italic, italicRegex.
    rewrite delimited_replace by assumption.
    cbn [group nth pred]. rewrite <- !app_assoc. reflexivity.
  - change (js "`") with [96]. rewrite Hshape. unfold stage_code, codeRegex.
    rewrite delimited_replace by assumption. reflexivity.
Qed.

Lemma emphasis_pairs_first_two_witness :
  stage_bold (js "so " ++ js "*" ++ js "very" ++ js "*" ++ js " *good")
  = js "so " ++ js "<strong>" ++ js "very" ++ js "</strong>"
    ++ stage_bold (js " *good")
  /\ stage_italic (js "so " ++ js "_" ++ js "very" ++ js "_" ++ js " *good")
     = js "so " ++ js "<em>" ++ js "very" ++ js "</em>"
       ++ stage_italic (js " *good")
  /\ stage_code (js "so " ++ js "`" ++ js "very" ++ js "`" ++ js " *good")
     = js "so " ++ code_html (js "very") ++ stage_code (js " *good").
Proof.
  destruct (emphasis_pairs_first_two (js "so ") (js "very") (js " *good"))
    as (H1 & H2 & H3); [discriminate|].
  split; [apply H1; reflexivity|].
  split; [apply H2; reflexivity | apply H3; reflexivity].
Defined.

(** X2. Emphasis, unclosed: a delimiter with no second one after it stays in
    the text, which is returned as it is. *)
Theorem emphasis_unclosed_kept (a b : jsstring) :
  (forallb (is_not 42) (a ++ b) = true ->
   stage_bold (a ++ js "*" ++ b) = a ++ js "*" ++ b)
  /\ (forallb (is_not 95) (a ++ b) = true ->
      stage_italic (a ++ js "_" ++ b) = a ++ js "_" ++ b)
  /\ (forallb (is_not 96) (a ++ b) = true ->
      stage_code (a ++ js "`" ++ b) = a ++ js "`" ++ b).
Proof.
  repeat split; intros Hab; rewrite forallb_app in Hab;
    apply andb_true_iff in Hab as [Ha Hb].
  - apply (delimited_unclosed 42); assumption.
  - apply (delimited_unclosed 95); assumption.
  - apply (delimited_unclosed 96); assumption.
Qed.

Lemma emphasis_unclosed_kept_witness :
  stage_bold (js "2 " ++ js "*" ++ js " 3") = js "2 " ++ js "*" ++ js " 3"
  /\ stage_italic (js "a" ++ js "_" ++ js "b") = js "a" ++ js "_" ++ js "b"
  /\ stage_code (js "it" ++ js "`" ++ js "s") = js "it" ++ js "`" ++ js "s".
Proof.
  split; [|split].
  - apply (emphasis_unclosed_kept (js "2 ") (js " 3")). reflexivity.
  - apply (emphasis_unclosed_kept (js "a") (js "b")). reflexivity.
  - apply (emphasis_unclosed_kept (js "it") (js "s")). reflexivity.
Defined.

(** *** Patterns that start with a fixed character *)

Lemma seq_lit_no_match_head (d c : N) (l : jsstring) (r : regex) (s : jsstring) :
  c <> d -> match_here (RSeq (RLit (d :: l)) r) (c :: s) = None.
Proof.
  intros Hne. unfold match_here. cbn [mt].
  rewrite strip_prefix_head by congruence. reflexivity.
Qed.

Lemma seq_lit_no_match_nil (d : N) (l : jsstring) (r : regex) :
  match_here (RSeq (RLit (d :: l)) r) [] = None.
Proof. reflexivity. Qed.

(** A pattern that cannot start with another character than [d] copies a
    stretch without [d]. *)
Lemma replace_all_copy_free (r : regex) f (d : N) (a s : jsstring) :
  (forall c t, c <> d -> match_here r (c :: t) = None) ->
  forallb (is_not d) a = true ->
  replace_all r f (a ++ s) = a ++ replace_all r f s.
Proof.
  intros Hhead Ha. unfold replace_all. apply replace_from_copy.
  intros a1 a2 Ha12 Hne. destruct a2 as [|c a2]; [contradiction|].
  cbn [app]. apply Hhead, is_not_true.
  exact (forallb_suffix_head _ _ _ _ _ Ha Ha12).
Qed.

Lemma replace_all_free (r : regex) f (d : N) (s : jsstring) :
  (forall c t, c <> d -> match_here r (c :: t) = None) ->
  match_here r [] = None ->
  forallb (is_not d) s = true ->
  replace_all r f s = s.
Proof.
  intros Hhead Hnil Hs. rewrite <- (app_nil_r s) at 1.
  rewrite (replace_all_copy_free r f d) by assumption.
  unfold replace_all. rewrite replace_from_nil by exact Hnil.
  apply app_nil_r.
Qed.

Lemma free_of_is_not (cs : list N) (d : N) (s : jsstring) :
  In d cs -> FormatAux.free_of cs s = true -> forallb (is_not d) s = true.
Proof.
  intros Hin Hs. unfold FormatAux.free_of in Hs.
  rewrite forallb_forall in *. intros c Hc. specialize (Hs c Hc).
  unfold is_not. destruct (N.eqb_spec c d) as [->|]; [|reflexivity].
  exfalso. apply negb_true_iff in Hs.
  assert (existsb (N.eqb d) cs = true); [|congruence].
  apply existsb_exists. exists d. split; [exact Hin | apply N.eqb_refl].
Qed.

Lemma stage_image_free (s : jsstring) :
  forallb (is_not 33) s = true -> stage_image s = s.
Proof.
  intros H. unfold stage_image. apply (replace_all_free _ _ 33); [| |exact H].
  - intros c t Hne. apply (seq_lit_no_match_head 33 c (js "[")). exact Hne.
  - reflexivity.
Qed.

Lemma stage_mention_free (s : jsstring) :
  forallb (is_not 64) s = true -> stage_mention s = s.
Proof.
  intros H. unfold stage_mention. apply (replace_all_free _ _ 64); [| |exact H].
  - intros c t Hne. apply (seq_lit_no_match_head 64 c []). exact Hne.
  - reflexivity.
Qed.

Lemma stage_channel_free (s : jsstring) :
  forallb (is_not 35) s = true -> stage_channel s = s.
Proof.
  intros H. unfold stage_channel. apply (replace_all_free _ _ 35); [| |exact H].
  - intros c t Hne. apply (seq_lit_no_match_head 35 c []). exact Hne.
  - reflexivity.
Qed.

Lemma stage_delimited_free (d : N) f (s : jsstring) :
  forallb (is_not d) s = true -> replace_all (delimited d) f s = s.
Proof.
  intros H. apply (replace_all_free _ _ d); [| |exact H].
  - intros c t Hne. apply delimited_no_match_head. exact Hne.
  - reflexivity.
Qed.

(** *** Mentions and channel references *)

Lemma sigil_match (sg : N) (w rest : jsstring) :
  w <> [] ->
  forallb is_word w = true ->
  at_word_end rest ->
  match_here (RSeq (RLit [sg]) (RGroup (RMany true 1 is_word)))
    ((sg :: w) ++ rest)
  = Some (sg :: w, [w]).
Proof.
  intros Hne Hw Hr. unfold match_here. cbn [mt].
  change ((sg :: w) ++ rest) with ([sg] ++ (w ++ rest)).
  rewrite strip_prefix_app.
  rewrite (many_greedy_run is_word 1 w rest _ (rest, [w])).
  - change ([sg] ++ w ++ rest) with ((sg :: w) ++ rest).
    rewrite take_matched. reflexivity.
  - exact Hw.
  - exact Hr.
  - destruct w; [contradiction | cbn [length]; lia].
  - rewrite take_matched. reflexivity.
Qed.

Lemma sigil_alone (sg : N) (rest : jsstring) :
  at_word_end rest ->
  match_here (RSeq (RLit [sg]) (RGroup (RMany true 1 is_word))) (sg :: rest)
  = None.
Proof.
  intros Hr. unfold match_here. cbn [mt].
  change (sg :: rest) with ([sg] ++ rest). rewrite strip_prefix_app.
  destruct rest as [|c rest]; [reflexivity|].
  cbn [at_word_end] in Hr. cbn [many]. rewrite Hr. reflexivity.
Qed.

(** X3. Mentions and channels: an [@], or a [#], and the whole run of word
    characters after it become one span; the span ends where the run
    ends, and the stage goes on from there. *)
Theorem sigil_spans_word_run (a w rest : jsstring) :
  w <> [] ->
  forallb is_word w = true ->
  at_word_end rest ->
  (forallb (is_not 64) a = true ->
   stage_mention (a ++ js "@" ++ w ++ rest)
   = a ++ span_html (js "@") w ++ stage_mention rest)
  /\ (forallb (is_not 35) a = true ->
      stage_channel (a ++ js "#" ++ w ++ rest)
      = a ++ span_html (js "#") w ++ stage_channel rest).
Proof.
  intros Hne Hw Hr. split; intros Ha.
  - rewrite !FormatFacts.stage_mention_plain.
    rewrite (replace_all_copy_free _ _ 64);
      [|intros c t Hc; apply (seq_lit_no_match_head 64 c []); exact Hc
       |exact Ha].
    f_equal. unfold replace_all.
    change (js "@" ++ w ++ rest) with ((64 :: w) ++ rest).
    rewrite (replace_from_match _ _ _ _ [w]);
      [reflexivity | discriminate | apply (sigil_match 64); assumption].
  - unfold stage_channel.
    rewrite (replace_all_copy_free _ _ 35);
      [|intros c t Hc; apply (seq_lit_no_match_head 35 c []); exact Hc
       |exact Ha].
    f_equal. unfold replace_all.
    change (js "#" ++ w ++ rest) with ((35 :: w) ++ rest).
    rewrite (replace_from_match _ _ _ _ [w]);
      [reflexivity | discriminate | apply (sigil_match 35); assumption].
Qed.

Lemma sigil_spans_word_run_witness :
  stage_mention (js "hi " ++ js "@" ++ js "bob_2" ++ js "-x")
  = js "hi " ++ span_html (js "@") (js "bob_2") ++ stage_mention (js "-x")
  /\ stage_channel (js "hi " ++ js "#" ++ js "bob_2" ++ js "-x")
     = js "hi " ++ span_html (js "#") (js "bob_2") ++ stage_channel (js "-x").
Proof.
  destruct (sigil_spans_word_run (js "hi ") (js "bob_2") (js "-x"))
    as (H1 & H2); [discriminate | reflexivity | reflexivity |].
  split; [apply H1; reflexivity | apply H2; reflexivity].
Defined.

(** X4. Mentions and channels, alone: an [@] or a [#] that no word character
    follows is left in the text. *)
Theorem sigil_alone_kept (a rest : jsstring) :
  at_word_end rest ->
  (forallb (is_not 64) a = true ->
   stage_mention (a ++ js "@" ++ rest) = a ++ js "@" ++ stage_mention rest)
  /\ (forallb (is_not 35) a = true ->
      stage_channel (a ++ js "#" ++ rest) = a ++ js "#" ++ stage_channel rest).
Proof.
  intros Hr. split; intros Ha.
  - rewrite !FormatFacts.stage_mention_plain.
    rewrite (replace_all_copy_free _ _ 64);
      [|intros c t Hc; apply (seq_lit_no_match_head 64 c []); exact Hc
       |exact Ha].
    f_equal. unfold replace_all. change (js "@" ++ rest) with (64 :: rest).
    cbn [replace_from].
    change mentionRegex_plain
      with (RSeq (RLit [64]) (RGroup (RMany true 1 is_word))).
    rewrite sigil_alone by exact Hr. reflexivity.
  - unfold stage_channel.
    rewrite (replace_all_copy_free _ _ 35);
      [|intros c t Hc; apply (seq_lit_no_match_head 35 c []); exact Hc
       |exact Ha].
    f_equal. unfold replace_all. change (js "#" ++ rest) with (35 :: rest).
    cbn [replace_from].
    change channelRegex
      with (RSeq (RLit [35]) (RGroup (RMany true 1 is_word))).
    rewrite sigil_alone by exact Hr. reflexivity.
Qed.

Lemma sigil_alone_kept_witness :
  stage_mention (js "me" ++ js "@" ++ js " home")
  = js "me" ++ js "@" ++ stage_mention (js " home")
  /\ stage_channel (js "no " ++ js "#" ++ js "-1")
     = js "no " ++ js "#" ++ stage_channel (js "-1").
Proof.
  split.
  - apply (sigil_alone_kept (js "me") (js " home")); reflexivity.
  - apply (sigil_alone_kept (js "no ") (js "-1")); reflexivity.
Defined.

(** *** Bare addresses *)

(** A text that does not include [pat] has it at the head of none of its
    ends. *)
Lemma includes_false_suffix (pat s : jsstring) :
  includes pat s = false ->
  forall a1 a2, s = a1 ++ a2 -> strip_prefix pat a2 = None.
Proof.
  induction s as [|c s IH]; intros H a1 a2 E.
  - destruct a1, a2; try discriminate E.
    cbn [includes] in H. destruct (strip_prefix pat []); [discriminate | reflexivity].
  - cbn [includes] in H.
    destruct (strip_prefix pat (c :: s)) eqn:Hp; [discriminate|].
    destruct a1 as [|c1 a1].
    + cbn [app] in E. subst a2. exact Hp.
    + cbn [app] in E. injection E as _ E. apply (IH H a1 a2 E).
Qed.


Lemma url_no_match (t : jsstring) :
  strip_prefix (js "http") t = None -> match_here urlRegex t = None.
Proof.
  intros H. unfold match_here, urlRegex. cbn [mt]. rewrite H. reflexivity.
Qed.

Lemma url_no_match_head (c : N) (t : jsstring) :
  c <> 104 -> match_here urlRegex (c :: t) = None.
Proof.
  intros Hne. apply url_no_match.
  change (js "http") with (104 :: js "ttp").
  apply strip_prefix_head. congruence.
Qed.

Lemma url_match (scheme v rest : jsstring) :
  scheme = js "http://" \/ scheme = js "https://" ->
  v <> [] ->
  forallb is_not_space v = true ->
  FormatAux.at_space rest ->
  match_here urlRegex ((scheme ++ v) ++ rest)
  = Some (scheme ++ v, [scheme ++ v]).
Proof.
  intros Hs Hne Hv Hr.
  assert (Hlen : (1 <= length v)%nat)
    by (destruct v; [contradiction | cbn [length]; lia]).
  unfold match_here, urlRegex. cbn [mt].
  set (s0 := (scheme ++ v) ++ rest).
  assert (Hmany : forall caps,
    many true is_not_space 1 (v ++ rest)
      (fun s' => Some (s', caps ++ [take (length s0 - length s') s0]))
    = Some (rest, caps ++ [scheme ++ v])).
  { intros caps. apply many_greedy_run; [exact Hv | exact Hr | exact Hlen |].
    unfold s0. rewrite take_matched. reflexivity. }
  destruct Hs as [-> | ->].
  - replace s0 with (js "http" ++ (js "://" ++ (v ++ rest))) at 1
      by (unfold s0; rewrite <- app_assoc; reflexivity).
    rewrite strip_prefix_app.
    replace (strip_prefix (js "s") (js "://" ++ v ++ rest)) with (@None jsstring)
      by reflexivity.
    rewrite strip_prefix_app, Hmany.
    unfold s0. rewrite take_matched. reflexivity.
  - replace s0 with (js "http" ++ (js "s" ++ (js "://" ++ (v ++ rest)))) at 1
      by (unfold s0; rewrite <- app_assoc; reflexivity).
    rewrite strip_prefix_app, strip_prefix_app, strip_prefix_app, Hmany.
    unfold s0. rewrite take_matched. reflexivity.
Qed.

Lemma stage_url_app (a u rest : jsstring) :
  forallb (is_not 104) a = true ->
  FormatAux.bare_url u ->
  FormatAux.at_space rest ->
  stage_url (a ++ u ++ rest) = a ++ link_html u ++ stage_url rest.
Proof.
  intros Ha (v & Hs & Hne & Hv) Hr. unfold stage_url.
  rewrite (replace_all_copy_free _ _ 104);
    [|intros c t Hc; apply url_no_match_head; exact Hc | exact Ha].
  f_equal. unfold replace_all.
  assert (Hu : u <> []) by (destruct Hs as [-> | ->]; discriminate).
  assert (Hm : match_here urlRegex (u ++ rest) = Some (u, [u])).
  { destruct Hs as [-> | ->]; apply url_match; auto. }
  rewrite (replace_from_match _ _ _ _ [u] Hu Hm). reflexivity.
Qed.

(** Before an address, no match of the link pattern starts in a text that
    holds no [http]: a match needs these four characters, and an address
    starts with [h], which completes none of [h], [ht] and [htt]. *)
Lemma url_no_match_before (a1 a2 u rest : jsstring) :
  includes (js "http") (a1 ++ a2) = false ->
  FormatAux.bare_url u ->
  a2 <> [] ->
  match_here urlRegex (a2 ++ u ++ rest) = None.
Proof.
  intros Ha (v & Hs & _ & _) Hne. apply url_no_match.
  pose proof (includes_false_suffix _ _ Ha a1 a2 eq_refl) as H2.
  assert (Hu : exists u', u = 104 :: u').
  { destruct Hs as [-> | ->]; eexists; reflexivity. }
  destruct Hu as (u' & ->).
  change (js "http") with [104; 116; 116; 112] in *.
  destruct a2 as [|c1 [|c2 [|c3 [|c4 a2]]]]; [contradiction| | | |];
    cbn [app strip_prefix] in *.
  - destruct (104 =? c1); reflexivity.
  - destruct (104 =? c1); [|reflexivity]. destruct (116 =? c2); reflexivity.
  - destruct (104 =? c1); [|reflexivity]. destruct (116 =? c2); [|reflexivity].
    destruct (116 =? c3); reflexivity.
  - destruct (104 =? c1); [|reflexivity]. destruct (116 =? c2); [|reflexivity].
    destruct (116 =? c3); [|reflexivity]. destruct (112 =? c4); [|reflexivity].
    discriminate H2.
Qed.

(** X5. Links: the first bare address of a text (nothing before it holds
    [http]) becomes a link that runs up to the next white space (or the
    end), so that whatever is glued to the address, a closing quote or
    bracket or a full stop, is part of the link; the stage goes on behind
    it. *)
Theorem url_link_runs_to_next_space (a u rest : jsstring) :
  includes (js "http") a = false ->
  FormatAux.bare_url u ->
  FormatAux.at_space rest ->
  stage_url (a ++ u ++ rest) = a ++ link_html u ++ stage_url rest.
Proof.
  intros Ha Hb Hr. unfold stage_url, replace_all.
  rewrite replace_from_copy.
  - f_equal. destruct Hb as (v & Hs & Hne & Hv).
    assert (Hu : u <> []) by (destruct Hs as [-> | ->]; discriminate).
    assert (Hm : match_here urlRegex (u ++ rest) = Some (u, [u])).
    { destruct Hs as [-> | ->]; apply url_match; auto. }
    rewrite (replace_from_match _ _ _ _ [u] Hu Hm). reflexivity.
  - intros a1 a2 E Hne. subst a.
    apply (url_no_match_before a1 a2 u rest Ha Hb Hne).
Qed.

Lemma url_link_runs_to_next_space_witness :
  stage_url (js "check this (" ++ js "https://a.b/c)." ++ js " now")
  = js "check this (" ++ link_html (js "https://a.b/c).")
    ++ stage_url (js " now").
Proof.
  apply (url_link_runs_to_next_space (js "check this (")
           (js "https://a.b/c).") (js " now")).
  - reflexivity.
  - exists (js "a.b/c)."). split; [right; reflexivity|].
    split; [discriminate | reflexivity].
  - reflexivity.
Defined.

(** *** Images *)

Lemma image_match (alt url rest : jsstring) :
  forallb is_dot alt = true -> forallb (is_not 93) alt = true ->
  forallb is_dot url = true -> forallb (is_not 41) url = true ->
  match_here imageRegex
    ((js "![" ++ alt ++ js "](" ++ url ++ js ")") ++ rest)
  = Some (js "![" ++ alt ++ js "](" ++ url ++ js ")", [alt; url]).
Proof.
  intros Hd1 Hn1 Hd2 Hn2. unfold match_here, imageRegex. cbn [mt].
  set (m := js "![" ++ alt ++ js "](" ++ url ++ js ")").
  set (s2 := url ++ js ")" ++ rest).
  set (s1 := alt ++ js "](" ++ s2).
  assert (Hs : m ++ rest = js "![" ++ s1).
  { unfold m, s1, s2. rewrite <- !app_assoc. reflexivity. }
  rewrite Hs at 1. rewrite strip_prefix_app.
  unfold s1 at 1.
  rewrite (many_lazy_run is_dot alt (js "](" ++ s2) _ (rest, [alt; url])).
  - rewrite take_matched. reflexivity.
  - exact Hd1.
  - intros w1 w2 Hw Hne. destruct w2 as [|c w2]; [contradiction|].
    cbn [app]. change (js "](") with (93 :: js "(").
    rewrite strip_prefix_head; [reflexivity|].
    intros E. apply (is_not_true 93 c); [|congruence].
    exact (forallb_suffix_head _ _ _ _ _ Hn1 Hw).
  - rewrite strip_prefix_app. unfold s2 at 1.
    rewrite (many_lazy_run is_dot url (js ")" ++ rest) _ (rest, [alt; url])).
    + reflexivity.
    + exact Hd2.
    + intros w1 w2 Hw Hne. destruct w2 as [|c w2]; [contradiction|].
      cbn [app]. change (js ")") with [41].
      rewrite strip_prefix_head; [reflexivity|].
      intros E. apply (is_not_true 41 c); [|congruence].
      exact (forallb_suffix_head _ _ _ _ _ Hn2 Hw).
    + rewrite strip_prefix_app.
      unfold s1. rewrite (take_matched alt).
      unfold s2. rewrite (take_matched url). reflexivity.
Qed.

(** X6. Images: the alternative text and the address of [![alt](url)] go into
    the [img] element exactly as they are written, each up to the first
    closing bracket of its kind, with no character of them escaped. *)
Theorem image_parts_inserted_verbatim (a alt url rest : jsstring) :
  forallb (is_not 33) a = true ->
  forallb is_dot alt = true -> forallb (is_not 93) alt = true ->
  forallb is_dot url = true -> forallb (is_not 41) url = true ->
  stage_image (a ++ (js "![" ++ alt ++ js "](" ++ url ++ js ")") ++ rest)
  = a ++ image_html alt url ++ stage_image rest.
Proof.
  intros Ha Hd1 Hn1 Hd2 Hn2. unfold stage_image.
  rewrite (replace_all_copy_free _ _ 33);
    [|intros c t Hc; apply (seq_lit_no_match_head 33 c (js "[")); exact Hc
     |exact Ha].
  f_equal. unfold replace_all.
  rewrite (replace_from_match _ _ _ _ [alt; url]);
    [reflexivity | discriminate | apply image_match; assumption].
Qed.

Lemma image_parts_inserted_verbatim_witness :
  stage_image (js "x " ++ (js "![" ++ (js "a" ++ dq ++ js " onerror=" ++ dq ++ js "f()")
                           ++ js "](" ++ js "u.png" ++ js ")") ++ js " y")
  = js "x " ++ image_html (js "a" ++ dq ++ js " onerror=" ++ dq ++ js "f()") (js "u.png")
    ++ stage_image (js " y").
Proof.
  apply (image_parts_inserted_verbatim (js "x ")
           (js "a" ++ dq ++ js " onerror=" ++ dq ++ js "f()") (js "u.png")
           (js " y")); reflexivity.
Defined.

(** *** Texts in which nothing matches *)

Lemma replace_all_no_match (r : regex) f (s : jsstring) :
  (forall a1 a2, s = a1 ++ a2 -> match_here r a2 = None) ->
  replace_all r f s = s.
Proof.
  intros Hno. unfold replace_all. rewrite <- (app_nil_r s) at 1.
  rewrite replace_from_copy, replace_from_nil, app_nil_r;
    [reflexivity | apply (Hno s []); symmetry; apply app_nil_r |].
  intros a1 a2 E _. rewrite app_nil_r. apply (Hno a1 a2 E).
Qed.

Lemma exec_all_no_match (r : regex) (s : jsstring) :
  (forall a1 a2, s = a1 ++ a2 -> match_here r a2 = None) ->
  exec_all r s = [].
Proof.
  intros Hno. unfold exec_all. rewrite <- (app_nil_r s).
  rewrite matches_from_copy.
  - cbn [matches_from]. rewrite (Hno s []); [reflexivity|].
    symmetry. apply app_nil_r.
  - intros a1 a2 E _. rewrite app_nil_r. apply (Hno a1 a2 E).
Qed.

Lemma filePattern_no_match (t : jsstring) :
  strip_prefix (marker ++ js " ") t = None -> match_here filePattern t = None.
Proof.
  intros H. unfold match_here, filePattern. cbn [mt]. rewrite H. reflexivity.
Qed.

Lemma stage_url_free (s : jsstring) :
  includes (js "http") s = false -> stage_url s = s.
Proof.
  intros H. unfold stage_url. apply replace_all_no_match.
  intros a1 a2 E. apply url_no_match.
  exact (includes_false_suffix _ _ H a1 a2 E).
Qed.

(** The stages after the highlighter leave alone a text without their
    starting characters. *)
Lemma late_stages_free (s : jsstring) :
  FormatAux.free_of FormatAux.triggers s = true ->
  stage_code (stage_italic (stage_bold (stage_channel (stage_mention s)))) = s.
Proof.
  intros H.
  rewrite stage_mention_free
    by (apply (free_of_is_not FormatAux.triggers); [cbn; tauto | exact H]).
  rewrite stage_channel_free
    by (apply (free_of_is_not FormatAux.triggers); [cbn; tauto | exact H]).
  unfold stage_bold, boldRegex.
  rewrite stage_delimited_free
    by (apply (free_of_is_not FormatAux.triggers); [cbn; tauto | exact H]).
  unfold stage_italic, italicRegex.
  rewrite stage_delimited_free
    by (apply (free_of_is_not FormatAux.triggers); [cbn; tauto | exact H]).
  unfold stage_code, codeRegex.
  apply stage_delimited_free.
  apply (free_of_is_not FormatAux.triggers); [cbn; tauto | exact H].
Qed.

(** X7. Plain text: a text with no attachment line, none of the characters
    [!], [@], [#], [*], [_] and backquote, and no [http], that the
    highlighter leaves alone, is returned as it is, white space at both
    ends included, and with no attachment. *)
Theorem formatMessageContent_plain_text_unchanged
    (hl : jsstring -> jsstring) (st : Storage) (draw : nat -> Z)
    (content : jsstring) :
  includes (marker ++ js " ") content = false ->
  FormatAux.free_of FormatAux.triggers content = true ->
  includes (js "http") content = false ->
  hl content = content ->
  formatMessageContent hl st draw content
  = Normal {| formattedContent := content; files := [] |}.
Proof.
  intros Hm Hf Hu Hhl.
  unfold formatMessageContent, formatMessageContent_from.
  rewrite exec_all_no_match.
  - cbn [loop]. unfold format_text.
    rewrite stage_image_free
      by (apply (free_of_is_not FormatAux.triggers); [cbn; tauto | exact Hf]).
    rewrite stage_url_free by exact Hu.
    rewrite Hhl, late_stages_free by exact Hf. reflexivity.
  - intros a1 a2 E. apply filePattern_no_match.
    exact (includes_false_suffix _ _ Hm a1 a2 E).
Qed.

Lemma formatMessageContent_plain_text_unchanged_witness :
  formatMessageContent highlightZaniMentions_model Absent (fun _ => 0%Z)
    (js "  see you at 5, ok?  ")
  = Normal {| formattedContent := js "  see you at 5, ok?  "; files := [] |}.
Proof.
  apply (formatMessageContent_plain_text_unchanged
           highlightZaniMentions_model Absent (fun _ => 0%Z));
    vm_compute; reflexivity.
Defined.

(** *** Two links in one text *)

Lemma link_html_split (u : jsstring) :
  link_html u = FormatAux.link_head u ++ js "_" ++ FormatAux.link_tail u.
Proof.
  unfold link_html, FormatAux.link_head, FormatAux.link_tail, q.
  rewrite <- !app_assoc. reflexivity.
Qed.

Lemma link_parts_free (d : N) (u : jsstring) :
  In d FormatAux.triggers ->
  forallb (is_not d) u = true ->
  forallb (is_not d) (FormatAux.link_head u) = true /\
  forallb (is_not d) (FormatAux.link_tail u) = true.
Proof.
  intros Hd Hu.
  unfold FormatAux.link_head, FormatAux.link_tail, q.
  rewrite !forallb_app, Hu.
  cbn [FormatAux.triggers In] in Hd.
  destruct Hd as [<-|[<-|[<-|[<-|[<-|[<-|[]]]]]]]; split; reflexivity.
Qed.

Lemma link_html_free (d : N) (u : jsstring) :
  In d [64; 35; 42; 96] ->
  forallb (is_not d) u = true ->
  forallb (is_not d) (link_html u) = true.
Proof.
  intros Hd Hu. rewrite link_html_split, !forallb_app.
  destruct (link_parts_free d u) as [-> ->];
    [cbn in *; tauto | exact Hu |].
  cbn [In] in Hd.
  destruct Hd as [<-|[<-|[<-|[<-|[]]]]]; reflexivity.
Qed.

Lemma free_of_app (cs : list N) (a b : jsstring) :
  FormatAux.free_of cs (a ++ b) = true ->
  FormatAux.free_of cs a = true /\ FormatAux.free_of cs b = true.
Proof.
  unfold FormatAux.free_of. rewrite forallb_app. apply andb_true_iff.
Qed.

(** X8. Two links: in a text made of two bare addresses with a space between
    them, the underscore of [_blank] in the first link and the one in the
    second are taken by the italic stage for a pair of delimiters, and
    everything from the middle of the first [a] tag to the middle of the
    second one is put into an [em] element. *)
Theorem two_links_emphasised_across (hl : jsstring -> jsstring)
    (u1 u2 : jsstring) :
  FormatAux.bare_url u1 ->
  FormatAux.bare_url u2 ->
  FormatAux.free_of FormatAux.triggers (u1 ++ u2) = true ->
  hl (link_html u1 ++ js " " ++ link_html u2)
  = link_html u1 ++ js " " ++ link_html u2 ->
  format_text hl (u1 ++ js " " ++ u2)
  = FormatAux.link_head u1 ++ js "<em>" ++ FormatAux.link_tail u1 ++ js " "
    ++ FormatAux.link_head u2 ++ js "</em>" ++ FormatAux.link_tail u2.
Proof.
  intros Hu1 Hu2 Hf Hhl.
  apply free_of_app in Hf as [Hf1 Hf2].
  assert (Hd : forall d, In d FormatAux.triggers ->
                         forallb (is_not d) u1 = true /\
                         forallb (is_not d) u2 = true).
  { intros d Hin. split; apply (free_of_is_not FormatAux.triggers); assumption. }
  unfold format_text.
  (* the image stage *)
  rewrite stage_image_free.
  2:{ rewrite !forallb_app. destruct (Hd 33) as [-> ->]; [cbn; tauto|].
      reflexivity. }
  (* the link stage *)
  change (u1 ++ js " " ++ u2) with ([] ++ u1 ++ js " " ++ u2).
  rewrite stage_url_app; [| reflexivity | exact Hu1 | reflexivity].
  rewrite <- (app_nil_r u2) at 1.
  rewrite stage_url_app; [| reflexivity | exact Hu2 | exact I].
  change (stage_url []) with (@nil N). rewrite app_nil_r.
  cbn [app]. change (32 :: link_html u2) with (js " " ++ link_html u2).
  rewrite Hhl.
  (* mentions, channels and bold *)
  assert (Hfree : forall d, In d [64; 35; 42; 96] ->
            forallb (is_not d) (link_html u1 ++ js " " ++ link_html u2) = true).
  { intros d Hin. rewrite !forallb_app.
    assert (Hin' : In d FormatAux.triggers) by (cbn in *; tauto).
    destruct (Hd d Hin') as [H1 H2].
    rewrite (link_html_free d u1 Hin H1), (link_html_free d u2 Hin H2).
    cbn [In] in Hin. destruct Hin as [<-|[<-|[<-|[<-|[]]]]]; reflexivity. }
  rewrite stage_mention_free by (apply Hfree; cbn; tauto).
  rewrite stage_channel_free by (apply Hfree; cbn; tauto).
  unfold stage_bold, boldRegex.
  rewrite stage_delimited_free by (apply Hfree; cbn; tauto).
  (* the italic stage *)
  destruct (Hd 95) as [H1 H2]; [cbn; tauto|].
  destruct (link_parts_free 95 u1) as [Hh1 Ht1]; [cbn; tauto | exact H1 |].
  destruct (link_parts_free 95 u2) as [Hh2 Ht2]; [cbn; tauto | exact H2 |].
  set (b := FormatAux.link_tail u1 ++ js " " ++ FormatAux.link_head u2).
  assert (Hshape : link_html u1 ++ js " " ++ link_html u2
                   = FormatAux.link_head u1 ++ (95 :: b ++ [95])
                     ++ FormatAux.link_tail u2).
  { rewrite !link_html_split. unfold b. change (js "_") with [95].
    cbn [app]. rewrite <- !app_assoc. reflexivity. }
  rewrite Hshape. unfold stage_italic, italicRegex.
  rewrite delimited_replace;
    [| exact Hh1
     | unfold b; rewrite !forallb_app, Ht1, Hh2; reflexivity
     | unfold b, FormatAux.link_tail; discriminate].
  rewrite stage_delimited_free by exact Ht2.
  cbn [group nth pred].
  (* the code stage *)
  unfold stage_code, codeRegex.
  rewrite stage_delimited_free.
  - unfold b. rewrite <- !app_assoc. reflexivity.
  - destruct (Hd 96) as [G1 G2]; [cbn; tauto|].
    destruct (link_parts_free 96 u1) as [Gh1 Gt1]; [cbn; tauto | exact G1 |].
    destruct (link_parts_free 96 u2) as [Gh2 Gt2]; [cbn; tauto | exact G2 |].
    unfold b. rewrite !forallb_app, Gh1, Gt1, Gh2, Gt2. reflexivity.
Qed.

Lemma two_links_emphasised_across_witness :
  format_text highlightZaniMentions_model
    (js "http://a.b" ++ js " " ++ js "https://c.d/e")
  = FormatAux.link_head (js "http://a.b") ++ js "<em>"
    ++ FormatAux.link_tail (js "http://a.b") ++ js " "
    ++ FormatAux.link_head (js "https://c.d/e") ++ js "</em>"
    ++ FormatAux.link_tail (js "https://c.d/e").
Proof.
  apply (two_links_emphasised_across highlightZaniMentions_model
           (js "http://a.b") (js "https://c.d/e")).
  - exists (js "a.b"). split; [left; reflexivity|].
    split; [discriminate | reflexivity].
  - exists (js "c.d/e"). split; [right; reflexivity|].
    split; [discriminate | reflexivity].
  - reflexivity.
  - vm_compute. reflexivity.
Defined.

(** *** The lookahead of the mention pattern *)

(** X9. Mentions, lookahead: the [(?!zani)] of the mention pattern changes
    nothing: on every text the mention stage gives what it would give
    with the pattern [/@(\w+)/g]. *)
Theorem mention_lookahead_changes_nothing (s : jsstring) :
  stage_mention s
  = replace_all mentionRegex_plain
      (fun _ caps => span_html (js "@") (group 1 caps)) s.
Proof.
  unfold stage_mention, replace_all.
  apply FormatFacts.replace_from_ext.
  intros t. apply FormatFacts.mentionRegex_lookahead_vacuous.
Qed.

End StageFacts.

(** ** Attachments: types, addresses, sizes and the list of files *)

Module AttachmentFacts.
Import Js Format FormatAux.

Ltac pick_member :=
  cbn [In]; first [left; vm_compute; reflexivity | right; pick_member].

Lemma one_of_in (l : list string) (e : jsstring) :
  one_of l e = true <-> exists x, In x l /\ e = js x.
Proof.
  unfold one_of. rewrite existsb_exists. split.
  - intros (x & Hin & Hx). exists x. split; [exact Hin|].
    unfold jseqb in Hx. apply bool_decide_eq_true in Hx. congruence.
  - intros (x & Hin & ->). exists x. split; [exact Hin|].
    unfold jseqb. apply bool_decide_eq_true. reflexivity.
Qed.

Lemma getFileType_of_extension (fileName : jsstring) (x : string) :
  extension_of fileName = js x ->
  getFileType fileName
  = (if one_of image_extensions (js x)
     then js "image/" ++ (if jseqb (js x) (js "jpg") then js "jpeg" else js x)
     else if jseqb (js x) (js "pdf") then js "application/pdf"
     else if one_of ["doc"; "docx"]%string (js x) then js "application/msword"
     else if one_of ["xls"; "xlsx"]%string (js x) then js "application/excel"
     else js "application/octet-stream").
Proof.
  intros E. unfold getFileType. fold (extension_of fileName). rewrite E.
  reflexivity.
Qed.

(** X10. File types: whatever the name, the type is one of nine: one of the
    five picture types (never [image/jpg]: [jpg] gives [image/jpeg]),
    pdf, msword, excel, or octet-stream. *)
Theorem getFileType_range (fileName : jsstring) :
  In (getFileType fileName)
     [js "image/jpeg"; js "image/png"; js "image/gif"; js "image/webp";
      js "image/svg"; js "application/pdf"; js "application/msword";
      js "application/excel"; js "application/octet-stream"].
Proof.
  unfold getFileType. fold (extension_of fileName).
  destruct (one_of _ (extension_of fileName)) eqn:H1.
  { apply one_of_in in H1 as (x & Hin & ->). cbn [In] in Hin.
    destruct Hin as [<-|[<-|[<-|[<-|[<-|[<-|[]]]]]]]; pick_member. }
  destruct (jseqb (extension_of fileName) (js "pdf")); [pick_member|].
  destruct (one_of ["doc"; "docx"]%string (extension_of fileName));
    [pick_member|].
  destruct (one_of ["xls"; "xlsx"]%string (extension_of fileName));
    pick_member.
Qed.

(** X11. Pictures: an attachment is shown as a picture by the view (its type
    starts with [image/]) exactly when its extension, in lower case, is
    one of jpg, jpeg, png, gif, webp and svg. *)
Theorem shown_as_image_iff (f : FileInfo) :
  type f = getFileType (name f) ->
  shown_as_image f = one_of image_extensions (extension_of (name f)).
Proof.
  intros Ht. unfold shown_as_image. rewrite Ht.
  unfold getFileType. fold (extension_of (name f)).
  change ["jpg"; "jpeg"; "png"; "gif"; "webp"; "svg"]%string with image_extensions.
  destruct (one_of image_extensions (extension_of (name f))) eqn:H1.
  { rewrite EngineFacts.strip_prefix_app. reflexivity. }
  destruct (jseqb (extension_of (name f)) (js "pdf")); [reflexivity|].
  destruct (one_of ["doc"; "docx"]%string (extension_of (name f)));
    [reflexivity|].
  destruct (one_of ["xls"; "xlsx"]%string (extension_of (name f)));
    reflexivity.
Qed.

Lemma shown_as_image_iff_witness :
  shown_as_image {| name := js "Logo.SVG"; type := js "image/svg";
                    url := js "u"; size := 1 |}
  = one_of image_extensions (extension_of (js "Logo.SVG")).
Proof.
  apply (shown_as_image_iff
           {| name := js "Logo.SVG"; type := js "image/svg";
              url := js "u"; size := 1 |}).
  vm_compute. reflexivity.
Defined.

(** *** The extension *)

Lemma lower_dot (c : N) : (lower c =? 46) = (c =? 46).
Proof.
  unfold lower. destruct ((65 <=? c) && (c <=? 90)) eqn:H; [|reflexivity].
  apply andb_true_iff in H as [H1 H2].
  apply N.leb_le in H1, H2.
  destruct (N.eqb_spec (c + 32) 46), (N.eqb_spec c 46); try reflexivity; lia.
Qed.

Lemma lower_idem (c : N) : lower (lower c) = lower c.
Proof.
  unfold lower. destruct ((65 <=? c) && (c <=? 90)) eqn:H.
  - apply andb_true_iff in H as [H1 H2]. apply N.leb_le in H1, H2.
    replace ((65 <=? c + 32) && (c + 32 <=? 90)) with false; [reflexivity|].
    symmetry. apply andb_false_iff. right. apply N.leb_gt. lia.
  - rewrite H. reflexivity.
Qed.

Lemma last_segment_lower (acc s : jsstring) :
  last_segment (map lower acc) (map lower s) = map lower (last_segment acc s).
Proof.
  revert acc. induction s as [|c s IH]; intros acc; [reflexivity|].
  cbn [map last_segment]. rewrite lower_dot.
  destruct (c =? 46).
  - apply (IH []).
  - rewrite <- IH, map_app. reflexivity.
Qed.

Lemma extension_of_lower (fileName : jsstring) :
  extension_of (toLowerCase fileName) = extension_of fileName.
Proof.
  unfold extension_of, toLowerCase, split_dot_pop.
  pose proof (last_segment_lower [] fileName) as E. cbn [map] in E.
  rewrite E, map_map.
  apply map_ext. intros c. apply lower_idem.
Qed.

Lemma last_segment_free (acc e : jsstring) :
  forallb (is_not 46) e = true -> last_segment acc e = acc ++ e.
Proof.
  revert acc. induction e as [|c e IH]; intros acc He.
  - symmetry. apply app_nil_r.
  - cbn [forallb] in He. apply andb_true_iff in He as [Hc He].
    cbn [last_segment]. unfold is_not in Hc. apply negb_true_iff in Hc.
    rewrite Hc, IH by exact He. rewrite <- app_assoc. reflexivity.
Qed.

Lemma last_segment_reset (acc a : jsstring) (e : jsstring) :
  exists a', last_segment acc (a ++ 46 :: e) = last_segment a' (46 :: e).
Proof.
  revert acc. induction a as [|c a IH]; intros acc.
  - exists acc. reflexivity.
  - cbn [app last_segment]. destruct (c =? 46); apply IH.
Qed.

Lemma split_dot_pop_after_dot (a e : jsstring) :
  forallb (is_not 46) e = true ->
  split_dot_pop (a ++ js "." ++ e) = e /\ split_dot_pop e = e.
Proof.
  intros He. unfold split_dot_pop. split.
  - change (js "." ++ e) with (46 :: e).
    destruct (last_segment_reset [] a e) as (a' & ->).
    cbn [last_segment]. rewrite N.eqb_refl.
    apply (last_segment_free [] e He).
  - apply (last_segment_free [] e He).
Qed.

(** X12. Extension: only what follows the last dot of the name counts, in any
    mixture of upper and lower case; a name with no dot counts as a whole,
    so that a file called [pdf] is a pdf. *)
Theorem getFileType_by_last_extension (a e : jsstring) :
  forallb (is_not 46) e = true ->
  getFileType (a ++ js "." ++ e) = getFileType e /\
  getFileType (a ++ js "." ++ e) = getFileType (toLowerCase (a ++ js "." ++ e)).
Proof.
  intros He.
  destruct (split_dot_pop_after_dot a e He) as [H1 H2].
  split.
  - unfold getFileType. rewrite H1, H2. reflexivity.
  - unfold getFileType. fold (extension_of (a ++ js "." ++ e)).
    fold (extension_of (toLowerCase (a ++ js "." ++ e))).
    rewrite extension_of_lower. reflexivity.
Qed.

Lemma getFileType_by_last_extension_witness :
  getFileType (js "Backup.tar" ++ js "." ++ js "PDF") = getFileType (js "PDF") /\
  getFileType (js "Backup.tar" ++ js "." ++ js "PDF")
  = getFileType (toLowerCase (js "Backup.tar" ++ js "." ++ js "PDF")).
Proof.
  apply (getFileType_by_last_extension (js "Backup.tar") (js "PDF")).
  reflexivity.
Defined.

(** *** The lookup in the store *)

Lemma find_by_name_others (fileName : jsstring) (pre post : list StoredValue) :
  others fileName pre ->
  find_by_name (pre ++ post) fileName = find_by_name post fileName.
Proof.
  induction 1 as [|v pre (g & -> & Hg) _ IH]; [reflexivity|].
  cbn [app find_by_name]. destruct (sf_name g) as [n|]; [|exact IH].
  unfold jseqb. rewrite bool_decide_eq_false_2 by congruence. exact IH.
Qed.

(** X13. Store, duplicates: the first stored object with the name decides; when
    it has no address (or no size), the fallback is used even if a later
    object with the same name has one. *)
Theorem lookup_first_match_decides (fileName : jsstring)
    (pre post : list StoredValue) (f : StoredFile) :
  others fileName pre ->
  sf_name f = Some fileName ->
  stored_url (Entries (pre ++ SFile f :: post)) fileName = truthy_str (sf_url f)
  /\ stored_size (Entries (pre ++ SFile f :: post)) fileName
     = truthy_num (sf_size f).
Proof.
  intros Hpre Hf. unfold stored_url, stored_size, lookup_entry.
  rewrite find_by_name_others by exact Hpre.
  cbn [find_by_name]. rewrite Hf. unfold jseqb.
  rewrite bool_decide_eq_true_2 by reflexivity. split; reflexivity.
Qed.

Lemma lookup_first_match_decides_witness :
  stored_url
    (Entries ([SFile {| sf_name := Some (js "b.txt"); sf_url := Some (js "u0");
                        sf_size := Some 1%Z |}]
              ++ SFile {| sf_name := Some (js "a.txt"); sf_url := None;
                          sf_size := Some 7%Z |}
              :: [SFile {| sf_name := Some (js "a.txt"); sf_url := Some (js "u2");
                           sf_size := Some 9%Z |}]))
    (js "a.txt")
  = truthy_str None
  /\ stored_size
       (Entries ([SFile {| sf_name := Some (js "b.txt"); sf_url := Some (js "u0");
                           sf_size := Some 1%Z |}]
                 ++ SFile {| sf_name := Some (js "a.txt"); sf_url := None;
                             sf_size := Some 7%Z |}
                 :: [SFile {| sf_name := Some (js "a.txt"); sf_url := Some (js "u2");
                              sf_size := Some 9%Z |}]))
       (js "a.txt")
     = truthy_num (Some 7%Z).
Proof.
  apply (lookup_first_match_decides (js "a.txt")
           [SFile {| sf_name := Some (js "b.txt"); sf_url := Some (js "u0");
                     sf_size := Some 1%Z |}]
           [SFile {| sf_name := Some (js "a.txt"); sf_url := Some (js "u2");
                     sf_size := Some 9%Z |}]
           {| sf_name := Some (js "a.txt"); sf_url := None;
              sf_size := Some 7%Z |}).
  - constructor; [|constructor]. eexists. split; [reflexivity|].
    cbn [sf_name]. intros E. discriminate E.
  - reflexivity.
Defined.

(** X14. Store, null: a [null] value met before the file is found makes the
    lookup give up (the exception is caught), so that the fallback is
    used although the file is stored further on. *)
Theorem lookup_null_before_match_gives_up (fileName : jsstring)
    (pre post : list StoredValue) :
  others fileName pre ->
  stored_url (Entries (pre ++ SNull :: post)) fileName = None /\
  stored_size (Entries (pre ++ SNull :: post)) fileName = None.
Proof.
  intros Hpre. unfold stored_url, stored_size, lookup_entry.
  rewrite find_by_name_others by exact Hpre. split; reflexivity.
Qed.

Lemma lookup_null_before_match_gives_up_witness :
  stored_url
    (Entries ([] ++ SNull
              :: [SFile {| sf_name := Some (js "a.txt"); sf_url := Some (js "u");
                           sf_size := Some 9%Z |}]))
    (js "a.txt") = None /\
  stored_size
    (Entries ([] ++ SNull
              :: [SFile {| sf_name := Some (js "a.txt"); sf_url := Some (js "u");
                           sf_size := Some 9%Z |}]))
    (js "a.txt") = None.
Proof.
  apply (lookup_null_before_match_gives_up (js "a.txt") []).
  constructor.
Defined.

(** *** Sizes *)

(** X15. Sizes: the size of an attachment is never 0; a stored size of 0, like
    a missing one, is replaced by a placeholder from 100000 to 5099999,
    which uses up one call of [Math.random]. *)
Theorem getFileSize_never_zero (st : Storage) (draw : nat -> Z) (k : nat)
    (fileName : jsstring) :
  (fst (getFileSize st draw k fileName) <> 0)%Z /\
  (stored_size st fileName = None ->
   (100000 <= fst (getFileSize st draw k fileName) < 5100000)%Z /\
   snd (getFileSize st draw k fileName) = S k) /\
  (forall n, stored_size st fileName = Some n ->
             getFileSize st draw k fileName = (n, k)).
Proof.
  unfold getFileSize.
  destruct (stored_size st fileName) as [n|] eqn:Hs.
  - split; [|split; [discriminate | intros m E; congruence]].
    cbn [fst]. unfold stored_size in Hs.
    destruct (lookup_entry st fileName) as [f|]; [|discriminate].
    unfold truthy_num in Hs. destruct (sf_size f) as [z|]; [|discriminate].
    destruct (Z.eqb_spec z 0); [discriminate|]. congruence.
  - pose proof (Z.mod_pos_bound (draw k) 5000000 ltac:(lia)) as Hb.
    cbn [fst snd]. split; [lia|]. split; [intros _; split; [lia | reflexivity]|].
    discriminate.
Qed.

Lemma getFileSize_never_zero_witness :
  (100000 <= fst (getFileSize
                    (Entries [SFile {| sf_name := Some (js "a.txt");
                                       sf_url := None; sf_size := Some 0%Z |}])
                    (fun _ => (-1)%Z) 0 (js "a.txt")) < 5100000)%Z /\
  snd (getFileSize
         (Entries [SFile {| sf_name := Some (js "a.txt");
                            sf_url := None; sf_size := Some 0%Z |}])
         (fun _ => (-1)%Z) 0 (js "a.txt")) = 1%nat.
Proof.
  apply (getFileSize_never_zero
           (Entries [SFile {| sf_name := Some (js "a.txt");
                              sf_url := None; sf_size := Some 0%Z |}])
           (fun _ => (-1)%Z) 0 (js "a.txt")).
  reflexivity.
Defined.

(** *** When the transformation raises *)

Lemma getActualFileUrl_throws_iff (st : Storage) (fileName : jsstring) (e : exn) :
  getActualFileUrl st fileName = Throw e <->
  stored_url st fileName = None /\
  one_of placeholder_extensions (extension_of fileName) = false /\
  latin1 fileName = false.
Proof.
  unfold getActualFileUrl, btoa. fold (extension_of fileName).
  change ["jpg"; "jpeg"; "png"; "gif"; "webp"]%string with placeholder_extensions.
  fold (latin1 fileName).
  destruct (stored_url st fileName) as [u|].
  { split; [discriminate | intros (H & _); discriminate H]. }
  destruct (one_of placeholder_extensions (extension_of fileName)).
  { split; [discriminate | intros (_ & H & _); discriminate H]. }
  destruct (latin1 fileName).
  { split; [discriminate | intros (_ & _ & H); discriminate H]. }
  destruct e. split; auto.
Qed.

Lemma loop_throws_iff (st : Storage) (draw : nat -> Z) (e : exn)
    (ms : list (jsstring * list jsstring)) :
  forall s,
    loop st draw ms s = Throw e <->
    Exists (fun m => getActualFileUrl st (match_name m) = Throw e) ms.
Proof.
  induction ms as [|m ms IH]; intros s; cbn [loop].
  - split; [discriminate | intros H; inversion H].
  - destruct s as [[fs t] k]. unfold loop_body. fold (match_name m).
    destruct (getActualFileUrl st (match_name m)) as [u|e'] eqn:Hu.
    + destruct (getFileSize st draw k (match_name m)) as [sz k'].
      rewrite IH. split.
      * intros H. right. exact H.
      * intros H. inversion H as [? ? H1|? ? H1]; subst; [congruence | exact H1].
    + destruct e, e'. split; [intros _; left; exact Hu | reflexivity].
Qed.

(** X16. Exceptions: [formatMessageContent] raises exactly when the text has an
    attachment line whose file has no address in the store, has no
    extension among jpg, jpeg, png, gif and webp, and has a name with a
    code unit above 0xFF; one such line is enough to lose the whole
    message. *)
Theorem formatMessageContent_throws_iff
    (hl : jsstring -> jsstring) (st : Storage) (draw : nat -> Z)
    (content : jsstring) :
  formatMessageContent hl st draw content = Throw InvalidCharacterError <->
  Exists (fun m => stored_url st (match_name m) = None /\
                   one_of placeholder_extensions (extension_of (match_name m))
                   = false /\
                   latin1 (match_name m) = false)
         (exec_all filePattern content).
Proof.
  unfold formatMessageContent, formatMessageContent_from.
  transitivity (Exists (fun m => getActualFileUrl st (match_name m)
                                 = Throw InvalidCharacterError)
                       (exec_all filePattern content)).
  - rewrite <- (loop_throws_iff st draw InvalidCharacterError _
                  ([], content, 0%nat)).
    destruct (loop st draw _ _) as [[[fs t] k]|e].
    + split; discriminate.
    + destruct e. split; reflexivity.
  - split; apply List.Exists_impl; intros m H.
    + apply (proj1 (getActualFileUrl_throws_iff st (match_name m)
                      InvalidCharacterError)), H.
    + apply (proj2 (getActualFileUrl_throws_iff st (match_name m)
                      InvalidCharacterError)), H.
Qed.

Lemma formatMessageContent_throws_iff_witness :
  formatMessageContent highlightZaniMentions_model Absent (fun _ => 0%Z)
    (js "hello" ++ [10] ++ unicode_input)
  = Throw InvalidCharacterError.
Proof.
  apply (formatMessageContent_throws_iff highlightZaniMentions_model Absent
           (fun _ => 0%Z) (js "hello" ++ [10] ++ unicode_input)).
  replace (exec_all filePattern (js "hello" ++ [10] ++ unicode_input))
    with [(unicode_input, [[26085; 26412] ++ js ".pdf"])]
    by (vm_compute; reflexivity).
  left. repeat split; vm_compute; reflexivity.
Defined.

(** *** The list of files *)

Lemma loop_files (st : Storage) (draw : nat -> Z)
    (P : FileInfo -> Prop) (ms : list (jsstring * list jsstring)) :
  (forall fileName u sz,
     getActualFileUrl st fileName = Normal u ->
     P {| name := fileName; type := getFileType fileName; url := u; size := sz |}) ->
  forall fs t k fs' t' k',
    loop st draw ms (fs, t, k) = Normal (fs', t', k') ->
    map name fs' = map name fs ++ map match_name ms /\
    (Forall P fs -> Forall P fs').
Proof.
  intros HP. induction ms as [|m ms IH]; intros fs t k fs' t' k' H;
    cbn [loop] in H.
  - injection H as <- <- <-. rewrite app_nil_r. auto.
  - unfold loop_body in H. fold (match_name m) in H.
    destruct (getActualFileUrl st (match_name m)) as [u|e] eqn:Hu;
      [|discriminate].
    destruct (getFileSize st draw k (match_name m)) as [sz k1].
    apply IH in H as [H1 H2]. split.
    + rewrite H1, map_app. cbn [map name]. rewrite <- app_assoc. reflexivity.
    + intros Hfs. apply H2. apply Forall_app. split; [exact Hfs|].
      constructor; [|constructor]. apply HP, Hu.
Qed.

(** X17. Files: when [formatMessageContent] returns, it returns one attachment
    for each attachment line of the text, in the order of the lines; each
    has the trimmed file name of its line, the type that [getFileType]
    gives to that name and the address that [getActualFileUrl] gives to
    it. *)
Theorem files_follow_attachment_lines
    (hl : jsstring -> jsstring) (st : Storage) (draw : nat -> Z)
    (content : jsstring) (r : Formatted) :
  formatMessageContent hl st draw content = Normal r ->
  map name (files r) = map match_name (exec_all filePattern content) /\
  Forall (fun f => type f = getFileType (name f) /\
                   getActualFileUrl st (name f) = Normal (url f))
         (files r).
Proof.
  unfold formatMessageContent, formatMessageContent_from. intros H.
  destruct (loop st draw _ _) as [[[fs t] k]|e] eqn:Hl; [|discriminate].
  injection H as <-. cbn [files].
  apply (loop_files st draw
           (fun f => type f = getFileType (name f) /\
                     getActualFileUrl st (name f) = Normal (url f)))
    in Hl as [H1 H2].
  - split; [exact H1 | apply H2; constructor].
  - intros fileName u sz Hu. cbn [name type url]. auto.
Qed.

Lemma files_follow_attachment_lines_witness :
  map name
    [ {| name := js "report.pdf"; type := js "application/pdf";
         url := js "data:application/octet-stream;base64,cmVwb3J0LnBkZg==";
         size := 100000 |} ]
  = map match_name (exec_all filePattern attachment_input) /\
  Forall (fun f => type f = getFileType (name f) /\
                   getActualFileUrl Absent (name f) = Normal (url f))
    [ {| name := js "report.pdf"; type := js "application/pdf";
         url := js "data:application/octet-stream;base64,cmVwb3J0LnBkZg==";
         size := 100000 |} ].
Proof.
  apply (files_follow_attachment_lines highlightZaniMentions_model Absent
           (fun _ => 0%Z) attachment_input
           {| formattedContent := js "hello";
              files := [ {| name := js "report.pdf";
                            type := js "application/pdf";
                            url := js "data:application/octet-stream;base64,cmVwb3J0LnBkZg==";
                            size := 100000 |} ] |}).
  vm_compute. reflexivity.
Defined.

(** X18. Pictures, svg: a file with the extension svg that has no address in
    the store is typed as a picture, but is not among the extensions with
    a stand-in picture: its address is the octet-stream data address made
    of the base64 of its name (or the exception of [btoa]). *)
Theorem svg_is_picture_without_placeholder (st : Storage) (fileName : jsstring) :
  extension_of fileName = js "svg" ->
  stored_url st fileName = None ->
  getFileType fileName = js "image/svg" /\
  getActualFileUrl st fileName
  = match btoa fileName with
    | Some b => Normal (js "data:application/octet-stream;base64," ++ b)
    | None => Throw InvalidCharacterError
    end.
Proof.
  intros He Hs. split.
  - rewrite (getFileType_of_extension fileName "svg" He). reflexivity.
  - unfold getActualFileUrl. rewrite Hs. fold (extension_of fileName).
    rewrite He. reflexivity.
Qed.

Lemma svg_is_picture_without_placeholder_witness :
  getFileType (js "logo.SVG") = js "image/svg" /\
  getActualFileUrl Absent (js "logo.SVG")
  = match btoa (js "logo.SVG") with
    | Some b => Normal (js "data:application/octet-stream;base64," ++ b)
    | None => Throw InvalidCharacterError
    end.
Proof.
  apply (svg_is_picture_without_placeholder Absent (js "logo.SVG"));
    reflexivity.
Defined.

(** *** File names *)

Lemma many_inv (g : bool) (p : N -> bool) (min : nat) (s : jsstring)
    (k : jsstring -> option mres) (x : mres) :
  many g p min s k = Some x ->
  exists pre s', s = pre ++ s' /\ forallb p pre = true /\
                 (min <= length pre)%nat /\ k s' = Some x.
Proof.
  revert min. induction s as [|c s IH]; intros min H; cbn [many] in H.
  - destruct min; [|discriminate]. exists [], []. auto.
  - assert (Hstop : match min with O => k (c :: s) | S _ => None end = Some x ->
                    exists pre s', c :: s = pre ++ s' /\ forallb p pre = true /\
                                   (min <= length pre)%nat /\ k s' = Some x).
    { destruct min; [|discriminate]. intros E. exists [], (c :: s). auto. }
    assert (Hmore : (if p c then many g p (pred min) s k else None) = Some x ->
                    exists pre s', c :: s = pre ++ s' /\ forallb p pre = true /\
                                   (min <= length pre)%nat /\ k s' = Some x).
    { destruct (p c) eqn:Hc; [|discriminate]. intros E.
      apply IH in E as (pre & s' & -> & Hp & Hl & Hk).
      exists (c :: pre), s'. cbn [forallb length]. rewrite Hc, Hp.
      repeat split; [lia | exact Hk]. }
    destruct g.
    + destruct (if p c then many true p (pred min) s k else None) eqn:E.
      * apply Hmore, H.
      * apply Hstop, H.
    + destruct (match min with O => k (c :: s) | S _ => None end) eqn:E.
      * apply Hstop, H.
      * apply Hmore, H.
Qed.

(** What a match of [filePattern] captures: a run of characters that are
    not line terminators, at least one. *)
Lemma filePattern_capture (s m0 : jsstring) (caps : list jsstring) :
  match_here filePattern s = Some (m0, caps) ->
  exists g, caps = [g] /\ g <> [] /\ forallb is_dot g = true.
Proof.
  unfold match_here, filePattern. cbn [mt].
  destruct (strip_prefix (marker ++ js " ") s) as [s1|]; [|discriminate].
  destruct (many false is_dot 1 s1 _) as [[rest caps']|] eqn:Hm; [|discriminate].
  intros H. injection H as _ <-.
  apply many_inv in Hm as (pre & s' & -> & Hp & Hl & Hk).
  exists pre. rewrite EngineFacts.take_matched in Hk.
  assert (caps' = [pre]) as ->.
  { destruct (strip_prefix [10] s') as [s2|].
    - injection Hk as _ <-. reflexivity.
    - destruct s'; [|discriminate]. injection Hk as _ <-. reflexivity. }
  repeat split; [|exact Hp]. destruct pre; [cbn in Hl; lia | discriminate].
Qed.

Lemma matches_from_all (r : regex) (P : jsstring * list jsstring -> Prop) :
  (forall t m, match_here r t = Some m -> P m) ->
  forall s skip, Forall P (matches_from r s skip).
Proof.
  intros HP s. induction s as [|c s IH]; intros skip; cbn [matches_from].
  - destruct skip; [|constructor].
    destruct (match_here r []) as [m|] eqn:E; constructor; [|constructor].
    eapply HP, E.
  - destruct skip; [|apply IH].
    destruct (match_here r (c :: s)) as [[m0 caps]|] eqn:E; [|apply IH].
    constructor; [eapply HP, E | apply IH].
Qed.

Lemma drop_spaces_suffix (s : jsstring) : exists p, s = p ++ drop_spaces s.
Proof.
  induction s as [|c s (p & IH)]; [exists []; reflexivity|].
  cbn [drop_spaces]. destruct (is_space c).
  - exists (c :: p). cbn [app]. congruence.
  - exists []. reflexivity.
Qed.

Lemma drop_spaces_head (s : jsstring) :
  match drop_spaces s with [] => True | c :: _ => is_space c = false end.
Proof.
  induction s as [|c s IH]; [exact I|].
  cbn [drop_spaces]. destruct (is_space c) eqn:E; [exact IH | exact E].
Qed.

Lemma drop_spaces_fix (s : jsstring) :
  match s with [] => True | c :: _ => is_space c = false end ->
  drop_spaces s = s.
Proof.
  destruct s as [|c s]; [reflexivity|]. intros H. cbn [drop_spaces].
  rewrite H. reflexivity.
Qed.

Lemma forallb_drop_spaces (p : N -> bool) (s : jsstring) :
  forallb p s = true -> forallb p (drop_spaces s) = true.
Proof.
  intros H. destruct (drop_spaces_suffix s) as (pre & E).
  rewrite E, forallb_app in H. apply andb_true_iff in H as [_ H]. exact H.
Qed.

Lemma forallb_rev (p : N -> bool) (s : jsstring) :
  forallb p (rev s) = forallb p s.
Proof.
  induction s as [|c s IH]; [reflexivity|].
  cbn [rev forallb]. rewrite forallb_app, IH. cbn [forallb].
  rewrite andb_true_r. apply andb_comm.
Qed.

Lemma forallb_trim (p : N -> bool) (s : jsstring) :
  forallb p s = true -> forallb p (trim s) = true.
Proof.
  intros H. unfold trim. rewrite forallb_rev.
  apply forallb_drop_spaces. rewrite forallb_rev.
  apply forallb_drop_spaces, H.
Qed.

(** A trimmed text has no white space at either end. *)
Lemma trim_idem (s : jsstring) : trim (trim s) = trim s.
Proof.
  unfold trim.
  set (t := drop_spaces s). set (u := drop_spaces (rev t)).
  assert (Hu : match u with [] => True | c :: _ => is_space c = false end)
    by apply drop_spaces_head.
  assert (Hr : match rev u with [] => True | c :: _ => is_space c = false end).
  { destruct (drop_spaces_suffix (rev t)) as (p & E). fold u in E.
    assert (Et : t = rev u ++ rev p).
    { rewrite <- (rev_involutive t), E, rev_app_distr. reflexivity. }
    pose proof (drop_spaces_head s) as Ht. fold t in Ht.
    destruct (rev u) as [|c ru]; [exact I|].
    rewrite Et in Ht. exact Ht. }
  rewrite (drop_spaces_fix (rev u) Hr), rev_involutive.
  rewrite (drop_spaces_fix u Hu). reflexivity.
Qed.

(** X19. File names: the name of every attachment returned is trimmed (no
    white space at either end) and holds no line terminator. *)
Theorem file_names_trimmed_one_line
    (hl : jsstring -> jsstring) (st : Storage) (draw : nat -> Z)
    (content : jsstring) (r : Formatted) :
  formatMessageContent hl st draw content = Normal r ->
  Forall (fun f => trim (name f) = name f /\ forallb is_dot (name f) = true)
         (files r).
Proof.
  intros H.
  assert (Hn : Forall (fun n => trim n = n /\ forallb is_dot n = true)
                      (map name (files r))).
  { unfold formatMessageContent, formatMessageContent_from in H.
    destruct (loop st draw _ _) as [[[fs t] k]|e] eqn:Hl; [|discriminate].
    injection H as <-. cbn [files].
    apply (loop_files st draw (fun _ => True)) in Hl as [-> _]; [|auto].
    cbn [map app]. apply Forall_map.
    apply matches_from_all. intros t0 [m0 caps] Hm.
    apply filePattern_capture in Hm as (g & -> & _ & Hg).
    unfold match_name. cbn [snd group nth pred].
    split; [apply trim_idem | apply forallb_trim, Hg]. }
  apply Forall_map in Hn. exact Hn.
Qed.

Lemma file_names_trimmed_one_line_witness :
  Forall (fun f => trim (name f) = name f /\ forallb is_dot (name f) = true)
    [ {| name := js "report.pdf"; type := js "application/pdf";
         url := js "data:application/octet-stream;base64,cmVwb3J0LnBkZg==";
         size := 100000 |} ].
Proof.
  apply (file_names_trimmed_one_line highlightZaniMentions_model Absent
           (fun _ => 0%Z) (marker ++ js "   report.pdf  " ++ [10] ++ js "hello")
           {| formattedContent := js "hello";
              files := [ {| name := js "report.pdf";
                            type := js "application/pdf";
                            url := js "data:application/octet-stream;base64,cmVwb3J0LnBkZg==";
                            size := 100000 |} ] |}).
  vm_compute. reflexivity.
Defined.

End AttachmentFacts.

(** ** Properties of the time shown *)

Module TimestampFacts.
Import Js Timestamp.

Local Open Scope Z_scope.

Section Facts.

Variable V : Type.
Variable Date_of_string : jsstring -> Date.
Variable Date_of_number : V -> Date.
Variable toLocaleDateString : Date -> jsstring.

Local Abbreviation ensure := (ensureDate V Date_of_string Date_of_number).
Local Abbreviation format :=
  (formatTimestamp V Date_of_string Date_of_number toLocaleDateString).

Lemma formatTimestamp_valid (clock1 clock2 d : Z) (t : timestamp V) :
  ensure clock1 t = Some d ->
  format clock1 clock2 t
  = let diff := clock2 - d in
    if diff / 60000 <? 1 then js "now"
    else if diff / 60000 <? 60 then number_to_string (Some (diff / 60000)) ++ js "m"
    else if diff / 3600000 <? 24 then number_to_string (Some (diff / 3600000)) ++ js "h"
    else if diff / 86400000 <? 7 then number_to_string (Some (diff / 86400000)) ++ js "d"
    else toLocaleDateString (Some d).
Proof.
  intros E. unfold formatTimestamp. rewrite E. reflexivity.
Qed.

(** X22. Time shown: for a valid date, with [diff] the milliseconds from it to
    now: under one minute (a date in the future included) the label is
    [now]; then whole minutes from [1m] to [59m]; then whole hours from
    [1h] to [23h]; then whole days from [1d] to [6d]; from seven days on,
    the local date. *)
Theorem formatTimestamp_table (clock1 clock2 d : Z) (t : timestamp V) :
  ensure clock1 t = Some d ->
  let diff := clock2 - d in
  (diff < 60000 -> format clock1 clock2 t = js "now") /\
  (60000 <= diff < 3600000 ->
   format clock1 clock2 t = number_to_string (Some (diff / 60000)) ++ js "m"
   /\ 1 <= diff / 60000 <= 59) /\
  (3600000 <= diff < 86400000 ->
   format clock1 clock2 t = number_to_string (Some (diff / 3600000)) ++ js "h"
   /\ 1 <= diff / 3600000 <= 23) /\
  (86400000 <= diff < 604800000 ->
   format clock1 clock2 t = number_to_string (Some (diff / 86400000)) ++ js "d"
   /\ 1 <= diff / 86400000 <= 6) /\
  (604800000 <= diff ->
   format clock1 clock2 t = toLocaleDateString (Some d)).
Proof.
  intros E diff. rewrite (formatTimestamp_valid clock1 clock2 d t E).
  fold diff. cbv zeta.
  assert (Hm : forall b lo hi, 0 < b -> lo * b <= diff < hi * b ->
                               lo <= diff / b < hi).
  { intros b lo hi Hb [H1 H2]. split.
    - apply Z.div_le_lower_bound; lia.
    - apply Z.div_lt_upper_bound; lia. }
  repeat split.
  - intros H. assert (diff / 60000 < 1) by (apply Z.div_lt_upper_bound; lia).
    destruct (Z.ltb_spec (diff / 60000) 1); [reflexivity | lia].
  - destruct (Hm 60000 1 60) as [G1 G2]; [lia | lia |].
    destruct (Z.ltb_spec (diff / 60000) 1); [lia|].
    destruct (Z.ltb_spec (diff / 60000) 60); [reflexivity | lia].
  - apply (Hm 60000 1 60); lia.
  - destruct (Hm 60000 1 60) as [G1 G2]; [lia | lia |]. lia.
  - destruct (Hm 60000 60 1440) as [G1 G2]; [lia | lia |].
    destruct (Hm 3600000 1 24) as [G3 G4]; [lia | lia |].
    destruct (Z.ltb_spec (diff / 60000) 1); [lia|].
    destruct (Z.ltb_spec (diff / 60000) 60); [lia|].
    destruct (Z.ltb_spec (diff / 3600000) 24); [reflexivity | lia].
  - apply (Hm 3600000 1 24); lia.
  - destruct (Hm 3600000 1 24) as [G1 G2]; [lia | lia |]. lia.
  - destruct (Hm 60000 1440 10080) as [G1 G2]; [lia | lia |].
    destruct (Hm 3600000 24 168) as [G3 G4]; [lia | lia |].
    destruct (Hm 86400000 1 7) as [G5 G6]; [lia | lia |].
    destruct (Z.ltb_spec (diff / 60000) 1); [lia|].
    destruct (Z.ltb_spec (diff / 60000) 60); [lia|].
    destruct (Z.ltb_spec (diff / 3600000) 24); [lia|].
    destruct (Z.ltb_spec (diff / 86400000) 7); [reflexivity | lia].
  - apply (Hm 86400000 1 7); lia.
  - destruct (Hm 86400000 1 7) as [G1 G2]; [lia | lia |]. lia.
  - intros H.
    assert (60 <= diff / 60000) by (apply Z.div_le_lower_bound; lia).
    assert (24 <= diff / 3600000) by (apply Z.div_le_lower_bound; lia).
    assert (7 <= diff / 86400000) by (apply Z.div_le_lower_bound; lia).
    destruct (Z.ltb_spec (diff / 60000) 1); [lia|].
    destruct (Z.ltb_spec (diff / 60000) 60); [lia|].
    destruct (Z.ltb_spec (diff / 3600000) 24); [lia|].
    destruct (Z.ltb_spec (diff / 86400000) 7); [lia | reflexivity].
Qed.

(** X23. Time shown, invalid date: for a date that is not valid (a string that
    does not parse, say) every comparison fails and the label is whatever
    [toLocaleDateString] gives for it, never [now]. *)
Theorem formatTimestamp_invalid_date (clock1 clock2 : Z) (t : timestamp V) :
  ensure clock1 t = None ->
  format clock1 clock2 t = toLocaleDateString None.
Proof.
  intros E. unfold formatTimestamp. rewrite E. reflexivity.
Qed.

(** X24. Time shown, no timestamp: for a timestamp that is neither a date, a
    string nor a number the date is the clock itself, and the label is
    [now] as long as the clock has not moved a minute between the two
    readings. *)
Theorem formatTimestamp_missing_is_now (clock1 clock2 : Z) :
  clock2 < clock1 + 60000 ->
  format clock1 clock2 TsOther = js "now".
Proof.
  intros H.
  rewrite (formatTimestamp_valid clock1 clock2 clock1 TsOther eq_refl).
  cbv zeta.
  assert ((clock2 - clock1) / 60000 < 1) by (apply Z.div_lt_upper_bound; lia).
  destruct (Z.ltb_spec ((clock2 - clock1) / 60000) 1); [reflexivity | lia].
Qed.

End Facts.

Local Abbreviation format0 :=
  (formatTimestamp Z sample_parse sample_of_number sample_locale).

Lemma formatTimestamp_table_witness :
  format0 0 (-5) (TsDate (Some 0)) = js "now" /\
  format0 0 3599999 (TsNumber 0) = js "59m" /\
  format0 0 3600000 (TsDate (Some 0)) = js "1h" /\
  format0 0 604799999 (TsDate (Some 0)) = js "6d" /\
  format0 0 604800000 (TsDate (Some 0)) = js "1/2/2024".
Proof.
  split; [|split; [|split; [|split]]].
  - apply (formatTimestamp_table Z sample_parse sample_of_number sample_locale
             0 (-5) 0 (TsDate (Some 0)) eq_refl). lia.
  - destruct (formatTimestamp_table Z sample_parse sample_of_number
                sample_locale 0 3599999 0 (TsNumber 0) eq_refl)
      as (_ & H & _).
    destruct H as [-> _]; [lia | reflexivity].
  - destruct (formatTimestamp_table Z sample_parse sample_of_number
                sample_locale 0 3600000 0 (TsDate (Some 0)) eq_refl)
      as (_ & _ & H & _).
    destruct H as [-> _]; [lia | reflexivity].
  - destruct (formatTimestamp_table Z sample_parse sample_of_number
                sample_locale 0 604799999 0 (TsDate (Some 0)) eq_refl)
      as (_ & _ & _ & H & _).
    destruct H as [-> _]; [lia | reflexivity].
  - apply (formatTimestamp_table Z sample_parse sample_of_number sample_locale
             0 604800000 0 (TsDate (Some 0)) eq_refl). lia.
Defined.

Lemma formatTimestamp_invalid_date_witness :
  format0 0 1000 (TsString (js "yesterday")) = js "Invalid Date".
Proof.
  apply (formatTimestamp_invalid_date Z sample_parse sample_of_number
           sample_locale 0 1000 (TsString (js "yesterday"))).
  reflexivity.
Defined.

Lemma formatTimestamp_missing_is_now_witness :
  format0 1700000000000 1700000000003 TsOther = js "now".
Proof.
  apply (formatTimestamp_missing_is_now Z sample_parse sample_of_number
           sample_locale 1700000000000 1700000000003).
  lia.
Defined.

End TimestampFacts.

(** ** Further properties of the dispatch effect *)

Module DispatchMore.
Import Js Dispatch.

Section Facts.

Variable containsZaniMention : jsstring -> bool.
Variable extractZaniQuery : jsstring -> option jsstring.
Variable getMessages : jsstring -> option (list Message).
Variable message : Message.

Local Abbreviation fire :=
  (processZani containsZaniMention extractZaniQuery getMessages message).
Local Abbreviation step' :=
  (step containsZaniMention extractZaniQuery getMessages message).
Local Abbreviation run' :=
  (run containsZaniMention extractZaniQuery getMessages message).
Local Abbreviation stored w :=
  (truthy_str (getStoredZaniResponse w (id message))).
Local Abbreviation inv := (Dispatch.inv extractZaniQuery getMessages message).

(** A bubble on which every firing is without effect stays as mounted. *)
Lemma run_idle (rs : gmap jsstring jsstring) (ps : gset jsstring)
    (tr : list event) (w : World) :
  (forall b, fire b (mount rs ps) = mount rs ps) ->
  run' tr (mount rs ps) = Some w ->
  w = mount rs ps.
Proof.
  intros Hidle. induction tr as [|e tr IH]; cbn [run]; [congruence|].
  destruct e as [b|r|]; cbn [step mount calls pending].
  - rewrite Hidle. destruct b; [discriminate | exact IH].
  - discriminate.
  - discriminate.
Qed.

(** X25. No mention: for a message with no content or without the mention,
    nothing ever happens: no call, no response shown, no flag, and the
    stores are left as they were. *)
Theorem no_mention_nothing_happens (rs : gmap jsstring jsstring)
    (ps : gset jsstring) (tr : list event) (w : World) :
  content message = [] \/ containsZaniMention (content message) = false ->
  run' tr (mount rs ps) = Some w ->
  w = mount rs ps.
Proof.
  intros H. apply run_idle. intros b. unfold processZani.
  destruct (content message) as [|c cs]; [reflexivity|].
  destruct H as [H|H]; [discriminate H|]. rewrite H. reflexivity.
Qed.

(** X26. Mention without a query: when nothing is stored for the message and no
    query can be extracted from its text, nothing ever happens either: the
    query service is not called with an empty query. *)
Theorem no_query_nothing_happens (rs : gmap jsstring jsstring)
    (ps : gset jsstring) (tr : list event) (w : World) :
  truthy_str (rs !! id message) = None ->
  truthy_str (extractZaniQuery (content message)) = None ->
  run' tr (mount rs ps) = Some w ->
  w = mount rs ps.
Proof.
  intros Hs Hq. apply run_idle. intros b. unfold processZani.
  destruct (content message) as [|c cs]; [reflexivity|].
  destruct (containsZaniMention (c :: cs)); [|reflexivity].
  unfold getStoredZaniResponse. cbn [mount responses]. rewrite Hs, Hq.
  destruct (negb _ && negb b); reflexivity.
Qed.

(** X27. Empty stored text: a stored response that is the empty string does
    not count as a response: for a message with a query that is not
    marked, the effect dispatches as if nothing were stored. *)
Theorem empty_stored_response_dispatches (q : jsstring) (w : World) :
  mention_with_query containsZaniMention extractZaniQuery message q ->
  getStoredZaniResponse w (id message) = Some [] ->
  id message ∉ processed w ->
  calls (fire false w) = calls w ++ [the_call getMessages message q] /\
  isProcessingZani (fire false w) = true /\
  zaniResponse (fire false w) = zaniResponse w.
Proof.
  intros Hq Hs Hp.
  rewrite (DispatchFacts.processZani_dispatches containsZaniMention
             extractZaniQuery getMessages message q w Hq);
    [repeat split | rewrite Hs; reflexivity | exact Hp].
Qed.

(** What one event does to the stored responses. *)
Lemma step_responses (e : event) (w w' : World) :
  step' e w = Some w' ->
  responses w' = responses w \/
  responses w' = <[id message := errorResponse]> (responses w).
Proof.
  intros Hs. destruct e as [b|r|]; cbn [step] in Hs.
  - assert (w' = fire b w) as -> by (destruct b, (calls w); congruence).
    destruct (DispatchFacts.processZani_cases containsZaniMention
                extractZaniQuery getMessages message b w)
      as [(s & _ & _ & _ & ->)|[(q & _ & _ & _ & _ & ->)| ->]]; left; reflexivity.
  - destruct (pending w); [discriminate|]. injection Hs as <-.
    left. destruct r; reflexivity.
  - destruct (pending w); [discriminate|]. injection Hs as <-.
    right. reflexivity.
Qed.

(** X28. Writes: whatever happens, the only thing the effect ever writes to the
    stored responses is the fixed error text under the id of its own
    message: the responses of all other messages are never touched, and a
    successful answer is never written. *)
Theorem only_error_text_is_stored (tr : list event) (w w' : World) :
  run' tr w = Some w' ->
  responses w' = responses w \/
  responses w' = <[id message := errorResponse]> (responses w).
Proof.
  revert w. induction tr as [|e tr IH]; intros w Hr; cbn [run] in Hr.
  - injection Hr as <-. left. reflexivity.
  - destruct (step' e w) as [w1|] eqn:Hs; [|discriminate].
    destruct (IH w1 Hr) as [H|H], (step_responses e w w1 Hs) as [H1|H1];
      rewrite H, H1; auto.
    right. apply insert_insert_eq.
Qed.

(** The flag follows the pending call. *)
Lemma flag_step (rs : gmap jsstring jsstring) (ps : gset jsstring)
    (e : event) (w w' : World) :
  inv rs ps w ->
  isProcessingZani w = negb (Nat.eqb (pending w) 0) ->
  step' e w = Some w' ->
  isProcessingZani w' = negb (Nat.eqb (pending w') 0).
Proof.
  intros Hi Hf Hs. pose proof (DispatchFacts.inv_pending_le_1
    extractZaniQuery getMessages message rs ps w Hi) as Hle.
  destruct e as [b|r|]; cbn [step] in Hs.
  - assert (w' = fire b w) as -> by (destruct b, (calls w); congruence).
    destruct (DispatchFacts.processZani_cases containsZaniMention
                extractZaniQuery getMessages message b w)
      as [(s & _ & _ & _ & ->)|[(q & _ & _ & _ & _ & ->)| ->]];
      [exact Hf | reflexivity | exact Hf].
  - destruct (pending w) as [|n] eqn:Hp; [discriminate|]. injection Hs as <-.
    assert (n = 0%nat) as -> by lia.
    destruct r;
      cbn [processZani_fulfilled setIsProcessingZani setZaniResponse settle
           pending isProcessingZani]; rewrite Hp; reflexivity.
  - destruct (pending w) as [|n] eqn:Hp; [discriminate|]. injection Hs as <-.
    assert (n = 0%nat) as -> by lia.
    cbn [processZani_rejected setIsProcessingZani setZaniResponse
         storeZaniResponse settle pending isProcessingZani].
    rewrite Hp. reflexivity.
Qed.

(** X29. Indicator: from the mount on, [isProcessingZani], which shows the
    "analyzing" indicator and hides the response, is true exactly while
    the call of the query service is pending. *)
Theorem indicator_while_pending (rs : gmap jsstring jsstring)
    (ps : gset jsstring) (tr : list event) (w : World) :
  run' tr (mount rs ps) = Some w ->
  isProcessingZani w = negb (Nat.eqb (pending w) 0).
Proof.
  assert (H : forall w0, inv rs ps w0 ->
                isProcessingZani w0 = negb (Nat.eqb (pending w0) 0) ->
                run' tr w0 = Some w ->
                isProcessingZani w = negb (Nat.eqb (pending w) 0)).
  { induction tr as [|e tr IH]; intros w0 Hi Hf Hr; cbn [run] in Hr.
    - congruence.
    - destruct (step' e w0) as [w1|] eqn:Hs; [|discriminate].
      apply (IH w1); [| |exact Hr].
      + eapply DispatchFacts.inv_step; eassumption.
      + eapply flag_step; eassumption. }
  apply H; [apply DispatchFacts.inv_mount | reflexivity].
Qed.

End Facts.

Local Abbreviation run0 :=
  (run containsZaniMention_model extractZaniQuery_model no_history).

Lemma no_mention_nothing_happens_witness :
  exists w,
    run0 {| id := js "m2"; channelId := js "general";
            content := js "lunch?" |}
         [Fire false; Fire false] empty_mount = Some w /\
    w = mount ∅ ∅.
Proof.
  eexists. split; [vm_compute; reflexivity|].
  apply (no_mention_nothing_happens containsZaniMention_model
           extractZaniQuery_model no_history
           {| id := js "m2"; channelId := js "general";
              content := js "lunch?" |} ∅ ∅ [Fire false; Fire false]).
  - right. vm_compute. reflexivity.
  - vm_compute. reflexivity.
Defined.

Lemma no_query_nothing_happens_witness :
  exists w,
    run0 {| id := js "m3"; channelId := js "general";
            content := js "thanks @zani  " |}
         [Fire false; Fire false] empty_mount = Some w /\
    w = mount ∅ ∅.
Proof.
  eexists. split; [vm_compute; reflexivity|].
  apply (no_query_nothing_happens containsZaniMention_model
           extractZaniQuery_model no_history
           {| id := js "m3"; channelId := js "general";
              content := js "thanks @zani  " |} ∅ ∅ [Fire false; Fire false]).
  - reflexivity.
  - vm_compute. reflexivity.
  - vm_compute. reflexivity.
Defined.

Lemma empty_stored_response_dispatches_witness :
  calls (processZani containsZaniMention_model extractZaniQuery_model
           no_history zani_message false
           (storeZaniResponse (id zani_message) [] empty_mount))
  = calls (storeZaniResponse (id zani_message) [] empty_mount)
    ++ [the_call no_history zani_message (js "what is up")] /\
  isProcessingZani (processZani containsZaniMention_model
                      extractZaniQuery_model no_history zani_message false
                      (storeZaniResponse (id zani_message) [] empty_mount))
  = true /\
  zaniResponse (processZani containsZaniMention_model extractZaniQuery_model
                  no_history zani_message false
                  (storeZaniResponse (id zani_message) [] empty_mount))
  = zaniResponse (storeZaniResponse (id zani_message) [] empty_mount).
Proof.
  apply (empty_stored_response_dispatches containsZaniMention_model
           extractZaniQuery_model no_history zani_message (js "what is up")
           (storeZaniResponse (id zani_message) [] empty_mount)).
  - split; [discriminate|]. split; vm_compute; reflexivity.
  - vm_compute. reflexivity.
  - apply not_elem_of_empty.
Defined.

Lemma only_error_text_is_stored_witness :
  exists w',
    run0 zani_message [Fire false; Reject; Fire false] empty_mount = Some w' /\
    (responses w' = responses empty_mount \/
     responses w' = <[id zani_message := errorResponse]> (responses empty_mount)).
Proof.
  eexists. split; [vm_compute; reflexivity|].
  apply (only_error_text_is_stored containsZaniMention_model
           extractZaniQuery_model no_history zani_message
           [Fire false; Reject; Fire false] empty_mount).
  vm_compute. reflexivity.
Defined.

Lemma indicator_while_pending_witness :
  exists w,
    run0 zani_message [Fire false; Fire true] empty_mount = Some w /\
    isProcessingZani w = negb (Nat.eqb (pending w) 0).
Proof.
  eexists. split; [vm_compute; reflexivity|].
  apply (indicator_while_pending containsZaniMention_model
           extractZaniQuery_model no_history zani_message ∅ ∅
           [Fire false; Fire true]).
  vm_compute. reflexivity.
Defined.

End DispatchMore.

(** ** Attachment lines and the text that is left *)

Module AttachmentLines.
Import Js Format FormatAux EngineFacts.

Lemma bare_name_parts (n : jsstring) :
  bare_name n = true ->
  forallb is_dot n = true /\ n <> [] /\
  drop_spaces n = n /\ drop_spaces (rev n) = rev n.
Proof.
  unfold bare_name. intros H.
  apply andb_true_iff in H as [H H3]. apply andb_true_iff in H as [H1 H2].
  split; [exact H1|].
  destruct n as [|c n]; [discriminate|]. split; [discriminate|].
  apply negb_true_iff in H2. split.
  - cbn [drop_spaces]. rewrite H2. reflexivity.
  - destruct (rev (c :: n)) as [|d l]; [discriminate|].
    apply negb_true_iff in H3. cbn [drop_spaces]. rewrite H3. reflexivity.
Qed.

Lemma trim_bare_name (n : jsstring) : bare_name n = true -> trim n = n.
Proof.
  intros H. apply bare_name_parts in H as (_ & _ & H1 & H2).
  unfold trim. rewrite H1, H2. apply rev_involutive.
Qed.

(** The end of an attachment line: a line feed or the end of the text. *)
Lemma line_end_refused (c : N) (s : jsstring) (caps : list jsstring) :
  is_dot c = true ->
  mt (RAlt (RLit [10]) REnd) (c :: s) caps (fun s' c' => Some (s', c')) = None.
Proof.
  intros Hc. cbn [mt]. rewrite strip_prefix_head; [reflexivity|].
  intros <-. discriminate Hc.
Qed.

Lemma filePattern_match (n tail rest : jsstring) :
  forallb is_dot n = true -> n <> [] ->
  (tail = [10] \/ (tail = [] /\ rest = [])) ->
  match_here filePattern ((attachment_line n ++ tail) ++ rest)
  = Some (attachment_line n ++ tail, [n]).
Proof.
  intros Hd Hne Ht. unfold match_here, filePattern, attachment_line. cbn [mt].
  replace (((marker ++ js " " ++ n) ++ tail) ++ rest)
    with ((marker ++ js " ") ++ (n ++ tail ++ rest))
    by (rewrite <- !app_assoc; reflexivity).
  rewrite strip_prefix_app.
  destruct n as [|c n]; [contradiction|].
  cbn [forallb] in Hd. apply andb_true_iff in Hd as [Hc Hd].
  cbn [app many pred]. rewrite Hc.
  rewrite (many_lazy_run is_dot n (tail ++ rest) _ (rest, [c :: n])).
  - replace ((marker ++ js " ") ++ c :: n ++ tail ++ rest)
      with (((marker ++ js " " ++ c :: n) ++ tail) ++ rest)
      by (rewrite <- !app_assoc; reflexivity).
    rewrite take_matched. reflexivity.
  - exact Hd.
  - intros w1 w2 Hw Hne2. destruct w2 as [|d w2]; [contradiction|].
    cbn [app]. rewrite strip_prefix_head; [reflexivity|].
    intros <-. pose proof (StageFacts.forallb_suffix_head _ _ _ _ _ Hd Hw) as Hx.
    discriminate Hx.
  - change (c :: n ++ tail ++ rest) with ((c :: n) ++ tail ++ rest).
    rewrite take_matched.
    destruct Ht as [-> | [-> ->]]; reflexivity.
Qed.

Lemma strip_prefix_short (pat s : jsstring) :
  (length s < length pat)%nat -> strip_prefix pat s = None.
Proof.
  revert s. induction pat as [|a pat IH]; intros s H; [cbn in H; lia|].
  destruct s as [|b s]; [reflexivity|].
  cbn [strip_prefix]. destruct (a =? b); [|reflexivity].
  apply IH. cbn [length] in H. lia.
Qed.

(** Cutting out a text that is longer than the text it is cut from does
    nothing. *)
Lemma remove_first_short (pat s : jsstring) :
  (length s < length pat)%nat -> remove_first pat s = s.
Proof.
  induction s as [|c s IH]; intros H.
  - cbn [remove_first]. rewrite strip_prefix_short by exact H.
    reflexivity.
  - cbn [remove_first]. rewrite strip_prefix_short by exact H.
    rewrite IH; [reflexivity|]. cbn [length] in H. lia.
Qed.

Lemma remove_first_prefix (pat s : jsstring) :
  remove_first pat (pat ++ s) = s.
Proof.
  destruct (pat ++ s) eqn:E; cbn [remove_first]; rewrite <- E;
    rewrite strip_prefix_app; reflexivity.
Qed.

Lemma trim_attachment_line (n tail : jsstring) :
  bare_name n = true -> tail = [10] \/ tail = [] ->
  trim (attachment_line n ++ tail) = attachment_line n.
Proof.
  intros Hn Ht. apply bare_name_parts in Hn as (_ & Hne & _ & Hr).
  unfold trim, attachment_line.
  change (marker ++ js " " ++ n) with (55357 :: 56526 :: 32 :: n).
  cbn [app drop_spaces].
  change (is_space 55357) with false. cbv iota.
  assert (E : drop_spaces (rev (55357 :: 56526 :: 32 :: n ++ tail))
              = rev (55357 :: 56526 :: 32 :: n)).
  { change (55357 :: 56526 :: 32 :: n ++ tail)
      with ([55357; 56526; 32] ++ n ++ tail).
    change (55357 :: 56526 :: 32 :: n) with ([55357; 56526; 32] ++ n).
    rewrite !rev_app_distr.
    destruct (rev n) as [|d l] eqn:En.
    { exfalso. apply Hne. rewrite <- (rev_involutive n), En. reflexivity. }
    cbn [drop_spaces] in Hr.
    destruct (is_space d) eqn:Hd.
    { exfalso. pose proof (AttachmentFacts.drop_spaces_suffix l) as (p & Ep).
      assert (length (d :: l) = length (drop_spaces l)) by (rewrite Hr; reflexivity).
      assert (length l = length (p ++ drop_spaces l)) by (rewrite <- Ep; reflexivity).
      rewrite length_app in *. cbn [length] in *. lia. }
    destruct Ht as [-> | ->]; cbn [rev app drop_spaces]; [|rewrite Hd; reflexivity].
    change (is_space 10) with true. cbv iota. rewrite Hd. reflexivity. }
  rewrite E. apply rev_involutive.
Qed.

Lemma match_name_bare (m0 n : jsstring) :
  bare_name n = true -> match_name (m0, [n]) = n.
Proof. intros H. unfold match_name. cbn [snd group nth pred]. apply trim_bare_name, H. Qed.

(** One turn of the loop that returns. *)
Lemma loop_body_normal (st : Storage) (draw : nat -> Z)
    (fs : list FileInfo) (t : jsstring) (k : nat)
    (m : jsstring * list jsstring) (s' : loop_state) :
  loop_body st draw (fs, t, k) m = Normal s' ->
  exists f k', name f = match_name m /\
               s' = (fs ++ [f], trim (remove_first (fst m) t), k').
Proof.
  unfold loop_body. fold (match_name m).
  destruct (getActualFileUrl st (match_name m)) as [u|e]; [|discriminate].
  destruct (getFileSize st draw k (match_name m)) as [sz k'].
  intros H. injection H as <-. eexists _, k'. split; [|reflexivity].
  reflexivity.
Qed.

(** X20. Attachment first: for a text that starts with one attachment line and
    has no other, the attachment has the name of the line, and the markup
    is made from the rest of the text, trimmed. *)
Theorem attachment_line_then_text
    (hl : jsstring -> jsstring) (st : Storage) (draw : nat -> Z)
    (n t : jsstring) (r : Formatted) :
  bare_name n = true ->
  includes (marker ++ js " ") t = false ->
  formatMessageContent hl st draw (attachment_line n ++ [10] ++ t) = Normal r ->
  formattedContent r = format_text hl (trim t) /\
  map name (files r) = [n].
Proof.
  intros Hn Ht H.
  destruct (bare_name_parts n Hn) as (Hd & Hne & _ & _).
  unfold formatMessageContent, formatMessageContent_from in H.
  assert (Hm : exec_all filePattern (attachment_line n ++ [10] ++ t)
               = [(attachment_line n ++ [10], [n])]).
  { unfold exec_all.
    replace (attachment_line n ++ [10] ++ t)
      with ((attachment_line n ++ [10]) ++ t)
      by (rewrite <- app_assoc; reflexivity).
    rewrite (matches_from_match _ _ _ [n]).
    - f_equal. apply (StageFacts.exec_all_no_match filePattern t).
      intros a1 a2 E. apply StageFacts.filePattern_no_match.
      exact (StageFacts.includes_false_suffix _ _ Ht a1 a2 E).
    - unfold attachment_line. discriminate.
    - apply filePattern_match; auto. }
  rewrite Hm in H. cbn [loop] in H.
  destruct (loop_body st draw _ _) as [s'|e] eqn:Hb; [|discriminate].
  apply loop_body_normal in Hb as (f & k' & Hf & ->).
  assert (Hcut : remove_first (fst (attachment_line n ++ [10], [n]))
                   (attachment_line n ++ [10] ++ t) = t).
  { cbn [fst].
    replace (attachment_line n ++ [10] ++ t)
      with ((attachment_line n ++ [10]) ++ t)
      by (rewrite <- app_assoc; reflexivity).
    apply remove_first_prefix. }
  rewrite (match_name_bare _ n Hn) in Hf.
  injection H as <-. split.
  - exact (f_equal (fun x => format_text hl (trim x)) Hcut).
  - exact (f_equal (fun x => [x]) Hf).
Qed.

Lemma attachment_line_then_text_witness :
  formattedContent
    {| formattedContent := js "see <strong>this</strong>";
       files := [ {| name := js "notes v2.txt";
                     type := js "application/octet-stream";
                     url := js "data:application/octet-stream;base64,bm90ZXMgdjIudHh0";
                     size := 100000 |} ] |}
  = format_text highlightZaniMentions_model (trim (js "  see *this* " ++ [10]))
  /\ map name
       [ {| name := js "notes v2.txt";
            type := js "application/octet-stream";
            url := js "data:application/octet-stream;base64,bm90ZXMgdjIudHh0";
            size := 100000 |} ]
     = [js "notes v2.txt"].
Proof.
  apply (attachment_line_then_text highlightZaniMentions_model Absent
           (fun _ => 0%Z) (js "notes v2.txt") (js "  see *this* " ++ [10])).
  - reflexivity.
  - reflexivity.
  - vm_compute. reflexivity.
Defined.

(** X21. Attachment lines at the end: in a text made of two attachment lines,
    each closed by a line feed, both attachments are returned, but the
    second line stays in the markup: trimming after the first line has
    taken its line feed away, so that the text to cut out is no longer
    found. *)
Theorem second_attachment_line_stays
    (hl : jsstring -> jsstring) (st : Storage) (draw : nat -> Z)
    (n1 n2 : jsstring) (r : Formatted) :
  bare_name n1 = true ->
  bare_name n2 = true ->
  formatMessageContent hl st draw
    (attachment_line n1 ++ [10] ++ attachment_line n2 ++ [10]) = Normal r ->
  formattedContent r = format_text hl (attachment_line n2) /\
  map name (files r) = [n1; n2].
Proof.
  intros Hn1 Hn2 H.
  destruct (bare_name_parts n1 Hn1) as (Hd1 & Hne1 & _ & _).
  destruct (bare_name_parts n2 Hn2) as (Hd2 & Hne2 & _ & _).
  unfold formatMessageContent, formatMessageContent_from in H.
  assert (Hshape : attachment_line n1 ++ [10] ++ attachment_line n2 ++ [10]
                   = (attachment_line n1 ++ [10])
                     ++ (attachment_line n2 ++ [10]))
    by (rewrite <- app_assoc; reflexivity).
  assert (Hm : exec_all filePattern
                 (attachment_line n1 ++ [10] ++ attachment_line n2 ++ [10])
               = [(attachment_line n1 ++ [10], [n1]);
                  (attachment_line n2 ++ [10], [n2])]).
  { unfold exec_all. rewrite Hshape.
    rewrite (matches_from_match _ _ _ [n1]);
      [| unfold attachment_line; discriminate
       | apply filePattern_match; auto].
    f_equal.
    pose proof (matches_from_match filePattern (attachment_line n2 ++ [10])
                  [] [n2]) as E.
    rewrite app_nil_r in E. rewrite E;
      [reflexivity
      | unfold attachment_line; discriminate
      | rewrite <- (app_nil_r (attachment_line n2 ++ [10])) at 1;
        apply filePattern_match; auto]. }
  rewrite Hm in H. cbn [loop] in H.
  destruct (loop_body st draw _ _) as [s1|e] eqn:Hb1; [|discriminate].
  apply loop_body_normal in Hb1 as (f1 & k1 & Hf1 & ->).
  destruct (loop_body st draw _ _) as [s2|e] eqn:Hb2; [|discriminate].
  apply loop_body_normal in Hb2 as (f2 & k2 & Hf2 & ->).
  assert (Hcut1 : trim (remove_first (fst (attachment_line n1 ++ [10], [n1]))
                          (attachment_line n1 ++ [10]
                           ++ attachment_line n2 ++ [10]))
                  = attachment_line n2).
  { cbn [fst]. rewrite Hshape, remove_first_prefix.
    apply (trim_attachment_line n2 [10] Hn2). left. reflexivity. }
  assert (Hcut2 : trim (remove_first (fst (attachment_line n2 ++ [10], [n2]))
                          (attachment_line n2))
                  = attachment_line n2).
  { cbn [fst].
    rewrite remove_first_short by (rewrite length_app; cbn [length]; lia).
    rewrite <- (app_nil_r (attachment_line n2)) at 1.
    apply (trim_attachment_line n2 [] Hn2). right. reflexivity. }
  rewrite (match_name_bare _ n1 Hn1) in Hf1.
  rewrite (match_name_bare _ n2 Hn2) in Hf2.
  injection H as <-. split.
  - refine (eq_trans (f_equal (fun x => format_text hl
               (trim (remove_first (fst (attachment_line n2 ++ [10], [n2])) x)))
               Hcut1) _).
    exact (f_equal (format_text hl) Hcut2).
  - exact (f_equal2 (fun x y => [x; y]) Hf1 Hf2).
Qed.

Lemma second_attachment_line_stays_witness :
  formattedContent
    {| formattedContent := marker ++ js " b.png";
       files := [ {| name := js "a.txt"; type := js "application/octet-stream";
                     url := js "data:application/octet-stream;base64,YS50eHQ=";
                     size := 100000 |};
                  {| name := js "b.png"; type := js "image/png";
                     url := js "/lovable-uploads/525e7c65-c028-4da7-a1e6-35cba7375353.png";
                     size := 100000 |} ] |}
  = format_text highlightZaniMentions_model (attachment_line (js "b.png"))
  /\ map name
       [ {| name := js "a.txt"; type := js "application/octet-stream";
            url := js "data:application/octet-stream;base64,YS50eHQ=";
            size := 100000 |};
         {| name := js "b.png"; type := js "image/png";
            url := js "/lovable-uploads/525e7c65-c028-4da7-a1e6-35cba7375353.png";
            size := 100000 |} ]
     = [js "a.txt"; js "b.png"].
Proof.
  apply (second_attachment_line_stays highlightZaniMentions_model Absent
           (fun _ => 0%Z) (js "a.txt") (js "b.png")).
  - reflexivity.
  - reflexivity.
  - vm_compute. reflexivity.
Defined.

End AttachmentLines.
